(** * SoulMob: the decision engine, the friction score and the
      environmental orchestrator

    A shallow embedding of [server/quantum/quaternaryLogic.ts] and
    [server/features/environmentalOrchestrator.ts].

    Conventions of the embedding.
    - A JavaScript [number] that the code only adds, multiplies, compares
      or divides by a non-zero constant is a rational ([Q]); the one
      division whose divisor can be zero ([decide]'s confidence) returns a
      [number], which has [NaN] and the infinities.
    - [undefined] is [None]; an optional field is an [option].
    - A [Record<string, _>] is a [gmap string _].
    - The hidden state of [this.rng] and the system clock are threaded
      explicitly.
    - Records are values: the record handed to [registerDevice] is the one
      stored, and the update a command makes to a record of the user's
      array is an update of that entry. What a caller does afterwards to
      an object it has registered is outside the embedding.
    - An [async] method runs to its end: no other call interleaves. *)

From Stdlib Require Import QArith Qminmax Lqa ZArith Lia.
From Stdlib Require Import DecimalString.
From stdpp Require Import base option list gmap strings fin_maps.

Local Open Scope Q_scope.

(** ** JavaScript numbers *)

Module JS.

(** The value of [a / b] for finite [a] and [b] (signed zeros apart). *)
Inductive number : Type :=
  | Finite (q : Q)
  | PosInfinity
  | NegInfinity
  | NaN.

Definition Qltb (x y : Q) : bool := negb (Qle_bool y x).

Definition div (a b : Q) : number :=
  if Qeq_bool b 0 then
    if Qeq_bool a 0 then NaN
    else if Qltb 0 a then PosInfinity else NegInfinity
  else Finite (a / b).

(** [x < t] where [x] may be [undefined]: [undefined] converts to [NaN],
    and every comparison with [NaN] is false. *)
Definition lt_undef (x : option Q) (t : Q) : bool :=
  match x with
  | Some v => Qltb v t
  | None => false
  end.

(** [x || 0] on a number that may be [undefined]. *)
Definition or_zero (x : option Q) : Q :=
  match x with
  | Some v => if Qeq_bool v 0 then 0 else v
  | None => 0
  end.

(** [Array.prototype.slice(start)]. *)
Definition slice {A} (start : Z) (l : list A) : list A :=
  let len := Z.of_nat (length l) in
  let k := if (start <? 0)%Z then Z.max (len + start) 0 else Z.min start len in
  drop (Z.to_nat k) l.

(** [String(n).padStart(2, '0')] for a natural number [n]. *)
Definition pad2 (n : nat) : string :=
  let s := NilZero.string_of_uint (Nat.to_uint n) in
  if (String.length s <? 2)%nat then ("0" ++ s)%string else s.

End JS.

(** ** quaternaryLogic.ts *)

Inductive TriState : Type := TRUE | FALSE | SUPERPOSITION.

Inductive QuatState : Type := ENTANGLEMENT.

Inductive Action : Type :=
  | PROCEED_LOCAL
  | SKIP_LOCAL
  | DEFER_UNTIL_COLLAPSE
  | ORCHESTRATE_SYNC.

Record DecisionContext : Type := {
  ctx_userId : string;
  ctx_features : list Q;
  ctx_emotionVector : option (gmap string Q);
  ctx_frictionScore : option Q;
  ctx_multiDeviceContext : option bool;
  ctx_deviceIds : option (list string)
}.

Record DecisionResult : Type := {
  action : Action;
  confidence : JS.number;
  triState : TriState;
  quatState : option QuatState;
  reasoning : string
}.

Definition collapseQubit (observation : Q) : TriState :=
  if JS.Qltb observation (33 # 100) then FALSE
  else if JS.Qltb observation (66 # 100) then TRUE
  else SUPERPOSITION.

Definition checkEntanglement (context : DecisionContext) : bool :=
  match ctx_multiDeviceContext context with
  | Some true =>
      match ctx_deviceIds context with
      | Some ids => (1 <? length ids)%nat
      | None => false
      end
  | _ => false
  end.

Section Decide.
(** [this.rng]: a generator with hidden state [G]. *)
Context {G : Type} (rng : G -> Q * G).

(** [context.features.map(feature => collapseQubit(this.rng()))] *)
Fixpoint collapseFeatures (g : G) (features : list Q) : list TriState * G :=
  match features with
  | [] => ([], g)
  | _ :: rest =>
      let '(observation, g1) := rng g in
      let '(trits, g2) := collapseFeatures g1 rest in
      (collapseQubit observation :: trits, g2)
  end.
End Decide.

Definition TriState_eqb (a b : TriState) : bool :=
  match a, b with
  | TRUE, TRUE | FALSE, FALSE | SUPERPOSITION, SUPERPOSITION => true
  | _, _ => false
  end.

(** [trits.filter((t) => t === s).length] *)
Definition tally (s : TriState) (trits : list TriState) : nat :=
  length (List.filter (TriState_eqb s) trits).

(** The object literal [triCounts], as [Object.entries] lists it. *)
Definition triCounts (trits : list TriState) : list (TriState * nat) :=
  [ (TRUE, tally TRUE trits);
    (FALSE, tally FALSE trits);
    (SUPERPOSITION, tally SUPERPOSITION trits) ].

(** The comparator [([, a], [, b]) => b - a]. *)
Definition byCountDesc (x y : TriState * nat) : Z :=
  (Z.of_nat (snd y) - Z.of_nat (snd x))%Z.

(** [Array.prototype.sort], which is stable: an element moves behind
    another only when the comparator is positive. *)
Section Sort.
Context {A : Type} (cmp : A -> A -> Z).

Fixpoint sort_insert (x : A) (l : list A) : list A :=
  match l with
  | [] => [x]
  | y :: l' => if (0 <? cmp x y)%Z then y :: sort_insert x l' else x :: l
  end.

Definition sort (l : list A) : list A := foldr sort_insert [] l.
End Sort.

(** [Object.entries(triCounts).sort(...)[0][0]] *)
Definition majorityTriState (trits : list TriState) : TriState :=
  match sort byCountDesc (triCounts trits) with
  | (s, _) :: _ => s
  | [] => TRUE (* not reached: the sorted array has three entries *)
  end.

(** [Math.max(...Object.values(triCounts))] *)
Definition maxCount (trits : list TriState) : nat :=
  foldr Nat.max 0%nat (snd <$> triCounts trits).

(** The class [QuantumDecisionEngine]: its generator and [decide]. *)
Module QuantumDecisionEngine.

(** [seededRandom]: one call of the closure on the captured [seed], an
    integer small enough for the product to be exact; [%] is the
    truncated remainder. *)
Definition seededRandom (seed : Z) : Q * Z :=
  let seed' := Z.rem (seed * 9301 + 49297) 233280 in
  (inject_Z seed' / 233280, seed').

Definition decide {G : Type} (rng : G -> Q * G) (g : G)
    (context : DecisionContext) : DecisionResult * G :=
  let '(trits, g') := collapseFeatures rng g (ctx_features context) in
  let majority := majorityTriState trits in
  let hasEntanglement := checkEntanglement context in
  let '(act, why) :=
    if hasEntanglement && TriState_eqb majority TRUE then
      (ORCHESTRATE_SYNC, "Multi-device synchronization required for this action"%string)
    else if TriState_eqb majority TRUE then
      (PROCEED_LOCAL, "Majority vote indicates proceed"%string)
    else if TriState_eqb majority FALSE then
      (SKIP_LOCAL, "Majority vote indicates skip"%string)
    else
      (DEFER_UNTIL_COLLAPSE,
       "Superposition state detected; deferring until more data available"%string) in
  let conf :=
    JS.div (inject_Z (Z.of_nat (maxCount trits)))
           (inject_Z (Z.of_nat (length trits))) in
  ({| action := act;
      confidence := conf;
      triState := majority;
      quatState := if hasEntanglement then Some ENTANGLEMENT else None;
      reasoning := why |}, g').

End QuantumDecisionEngine.

(** *** FrictionScoreCalculator *)

Record FrictionMetrics : Type := {
  batteryEntropy : Q;
  freeRam : Q;
  behavioralAuthErrorRate : Q;
  typingErrorRate : Q;
  fm_emotionVector : option (gmap string Q)
}.

Module FrictionScoreCalculator.

Definition calculate (metrics : FrictionMetrics) : Q :=
  let batteryFriction := batteryEntropy metrics in
  let ramFriction :=
    Qmax 0 (1 - freeRam metrics / (4 * 1024 * 1024 * 1024)) in
  let authFriction := behavioralAuthErrorRate metrics in
  let typingFriction := typingErrorRate metrics in
  let emotionFriction :=
    match fm_emotionVector metrics with
    | Some ev =>
        JS.or_zero (ev !! "rushed"%string) * (5 # 10)
        + JS.or_zero (ev !! "tired"%string) * (3 # 10)
    | None => 0
    end in
  let frictionScore :=
    batteryFriction * (2 # 10) + ramFriction * (2 # 10)
    + authFriction * (2 # 10) + typingFriction * (2 # 10)
    + emotionFriction * (2 # 10) in
  Qmin 1 (Qmax 0 frictionScore).

End FrictionScoreCalculator.

(** *** AnchorCore *)

Record AnchorState : Type := {
  as_userId : string;
  as_emotionVector : gmap string Q;
  as_frictionScore : Q;
  as_currentTask : option string;
  as_clipboardHistory : list string;
  as_timestamp : Z
}.

(** The class [AnchorCore] over its private map [states]. *)
Module AnchorCore.

Definition storeState (state : AnchorState) (states : gmap string AnchorState)
    : gmap string AnchorState :=
  <[as_userId state := state]> states.

Definition getState (userId : string) (states : gmap string AnchorState)
    : option AnchorState :=
  states !! userId.

(** The mock synchronization: it reads the state and writes to the console,
    which is not modelled. *)
Definition syncAcrossDevices (userId : string) (deviceIds : list string)
    (states : gmap string AnchorState) : bool :=
  match getState userId states with
  | None => false
  | Some _ => true
  end.

End AnchorCore.

(** ** environmentalOrchestrator.ts *)

(** A value of a [Record<string, any>] bag. *)
#[local] Unset Elimination Schemes.
Inductive any : Type :=
  | JNull
  | JBool (b : bool)
  | JNum (q : Q)
  | JStr (s : string)
  | JArr (items : list any)
  | JObj (fields : list (string * any)).
#[local] Set Elimination Schemes.

Inductive DeviceType : Type :=
  | light | thermostat | speaker | lock | camera | other.

Record SmartHomeDevice : Type := {
  d_id : string;
  d_userId : string;
  d_deviceId : string;
  d_deviceName : string;
  d_deviceType : DeviceType;
  d_state : gmap string any;
  d_lastSyncedAt : option Z
}.

Record FrictionWindow : Type := { min : option Q; max : option Q }.

Record TimeWindow : Type := { start : string; end_ : string }.

Record Condition : Type := {
  c_emotionVector : option (gmap string Q);
  c_frictionScore : option FrictionWindow;
  c_timeOfDay : option TimeWindow
}.

Record ActionSpec : Type := {
  a_deviceId : string;
  a_command : string;
  a_parameters : gmap string any
}.

Record EnvironmentalPolicy : Type := {
  p_id : string;
  p_userId : string;
  p_policyName : string;
  p_condition : Condition;
  p_devices : list ActionSpec;   (* action.devices *)
  p_isActive : bool;
  p_createdAt : Z
}.

Record ActionOutcome : Type := {
  o_deviceId : string;
  o_command : string;
  o_success : bool;
  o_error : option string
}.

Record OrchestrationResult : Type := {
  r_policyId : string;
  r_policyName : string;
  r_triggeredAt : Z;
  r_actions : list ActionOutcome
}.

(** The three private fields of [EnvironmentalOrchestratorEngine]. *)
Record Engine : Type := {
  devices : gmap string (list SmartHomeDevice);
  policies : gmap string (list EnvironmentalPolicy);
  orchestrationHistory : list OrchestrationResult
}.

Definition newEngine : Engine :=
  {| devices := ∅; policies := ∅; orchestrationHistory := [] |}.

(** What one reading of the system clock gives: [Date.now()] and the
    local hour and minute of [new Date()]. *)
Record Instant : Type := { epochMs : Z; getHours : nat; getMinutes : nat }.

(** The engine together with the number of clock readings made so far. *)
Record World : Type := { engine : Engine; reads : nat }.

Definition registerDevice (device : SmartHomeDevice) (e : Engine) : Engine :=
  let userDevices := default [] (devices e !! d_userId device) in
  let userDevices' :=
    match list_find (λ d, d_deviceId d = d_deviceId device) userDevices with
    | Some (existingIndex, _) => <[existingIndex := device]> userDevices
    | None => userDevices ++ [device]
    end in
  {| devices := <[d_userId device := userDevices']> (devices e);
     policies := policies e;
     orchestrationHistory := orchestrationHistory e |}.

Definition createPolicy (policy : EnvironmentalPolicy) (e : Engine) : Engine :=
  {| devices := devices e;
     policies :=
       <[p_userId policy := default [] (policies e !! p_userId policy) ++ [policy]]>
         (policies e);
     orchestrationHistory := orchestrationHistory e |}.

(** The loop over [Object.entries(condition.emotionVector)]. *)
Definition emotionClause (condition : Condition) (emotionVector : gmap string Q) : bool :=
  match c_emotionVector condition with
  | Some thresholds =>
      forallb (λ '(emotion, threshold),
                 negb (JS.lt_undef (emotionVector !! emotion) threshold))
              (map_to_list thresholds)
  | None => true
  end.

Definition frictionClause (condition : Condition) (frictionScore : Q) : bool :=
  match c_frictionScore condition with
  | Some window =>
      let below :=
        match min window with Some lo => JS.Qltb frictionScore lo | None => false end in
      let above :=
        match max window with Some hi => JS.Qltb hi frictionScore | None => false end in
      negb below && negb above
  | None => true
  end.

Definition currentTime (now : Instant) : string :=
  (JS.pad2 (getHours now) ++ ":" ++ JS.pad2 (getMinutes now))%string.

Section Orchestrator.
(** [clock n] is the [n]-th reading of the system clock. *)
Variable clock : nat → Instant.

Definition evaluateCondition (condition : Condition)
    (emotionVector : gmap string Q) (frictionScore : Q) (n : nat) : bool * nat :=
  if negb (emotionClause condition emotionVector) then (false, n)
  else if negb (frictionClause condition frictionScore) then (false, n)
  else
    match c_timeOfDay condition with
    | Some window =>
        let now := currentTime (clock n) in
        (negb (String.ltb now (start window) || String.ltb (end_ window) now), S n)
    | None => (true, n)
    end.

(** The command is a local update of the record; the console output is
    not modelled. *)
Definition sendDeviceCommand (device : SmartHomeDevice) (command : string)
    (parameters : gmap string any) (n : nat) : bool * SmartHomeDevice * nat :=
  let state' :=
    <["lastCommandTime"%string := JNum (inject_Z (epochMs (clock n)))]>
      (<["lastCommand"%string := JStr command]> (parameters ∪ d_state device)) in
  (true,
   {| d_id := d_id device; d_userId := d_userId device;
      d_deviceId := d_deviceId device; d_deviceName := d_deviceName device;
      d_deviceType := d_deviceType device;
      d_state := state';
      d_lastSyncedAt := Some (epochMs (clock (S n))) |},
   S (S n)).

(** The [for] loop of [executePolicy] over [policy.action.devices];
    [userDevices] is the user's array, whose records the commands update
    in place. *)
Fixpoint executeActions (specs : list ActionSpec)
    (userDevices : list SmartHomeDevice) (n : nat)
    : list ActionOutcome * list SmartHomeDevice * nat :=
  match specs with
  | [] => ([], userDevices, n)
  | actionSpec :: rest =>
      match list_find (λ d, d_deviceId d = a_deviceId actionSpec) userDevices with
      | Some (i, device) =>
          let '(success, device', n1) :=
            sendDeviceCommand device (a_command actionSpec)
                              (a_parameters actionSpec) n in
          let outcome :=
            {| o_deviceId := a_deviceId actionSpec;
               o_command := a_command actionSpec;
               o_success := success;
               o_error := if success then None
                          else Some "Device command failed"%string |} in
          let '(actions, userDevices', n2) :=
            executeActions rest (<[i := device']> userDevices) n1 in
          (outcome :: actions, userDevices', n2)
      | None =>
          let outcome :=
            {| o_deviceId := a_deviceId actionSpec;
               o_command := a_command actionSpec;
               o_success := false;
               o_error := Some "Device not found"%string |} in
          let '(actions, userDevices', n2) := executeActions rest userDevices n in
          (outcome :: actions, userDevices', n2)
      end
  end.

Definition executePolicy (userId : string) (policy : EnvironmentalPolicy)
    (w : World) : OrchestrationResult * World :=
  let e := engine w in
  let registered := devices e !! userId in
  let '(actions, userDevices', n) :=
    executeActions (p_devices policy) (default [] registered) (reads w) in
  ({| r_policyId := p_id policy;
      r_policyName := p_policyName policy;
      r_triggeredAt := epochMs (clock n);
      r_actions := actions |},
   {| engine :=
        {| devices :=
             match registered with
             | Some _ => <[userId := userDevices']> (devices e)
             | None => devices e
             end;
           policies := policies e;
           orchestrationHistory := orchestrationHistory e |};
      reads := S n |}).

Definition logResult (result : OrchestrationResult) (w : World) : World :=
  {| engine :=
       {| devices := devices (engine w);
          policies := policies (engine w);
          orchestrationHistory := orchestrationHistory (engine w) ++ [result] |};
     reads := reads w |}.

(** The [for] loop of [orchestrate] over the user's policies. *)
Fixpoint orchestratePolicies (userId : string) (emotionVector : gmap string Q)
    (frictionScore : Q) (userPolicies : list EnvironmentalPolicy) (w : World)
    : list OrchestrationResult * World :=
  match userPolicies with
  | [] => ([], w)
  | policy :: rest =>
      if negb (p_isActive policy) then
        orchestratePolicies userId emotionVector frictionScore rest w
      else
        let '(matched, n) :=
          evaluateCondition (p_condition policy) emotionVector frictionScore
                            (reads w) in
        let w1 := {| engine := engine w; reads := n |} in
        if matched then
          let '(result, w2) := executePolicy userId policy w1 in
          let '(results, w3) :=
            orchestratePolicies userId emotionVector frictionScore rest
                                (logResult result w2) in
          (result :: results, w3)
        else orchestratePolicies userId emotionVector frictionScore rest w1
  end.

Definition orchestrate (userId : string) (emotionVector : gmap string Q)
    (frictionScore : Q) (w : World) : list OrchestrationResult * World :=
  orchestratePolicies userId emotionVector frictionScore
    (default [] (policies (engine w) !! userId)) w.
End Orchestrator.

(** [r.triggeredAt] as a condition: a number is truthy unless it is zero. *)
Definition truthy (z : Z) : bool := negb (z =? 0)%Z.

Definition getHistory (userId : string) (limit : Z) (e : Engine)
    : list OrchestrationResult :=
  JS.slice (- limit)
           (List.filter (λ r, truthy (r_triggeredAt r)) (orchestrationHistory e)).

(** The default value of [limit]. *)
Definition defaultLimit : Z := 50.

Definition getDevices (userId : string) (e : Engine) : list SmartHomeDevice :=
  default [] (devices e !! userId).

Definition getPolicies (userId : string) (e : Engine) : list EnvironmentalPolicy :=
  default [] (policies e !! userId).

(** The calls of the public interface that change the engine. *)
Inductive Call : Type :=
  | RegisterDevice (device : SmartHomeDevice)
  | CreatePolicy (policy : EnvironmentalPolicy)
  | Orchestrate (userId : string) (emotionVector : gmap string Q) (frictionScore : Q).

Definition call (clock : nat → Instant) (w : World) (c : Call) : World :=
  match c with
  | RegisterDevice device =>
      {| engine := registerDevice device (engine w); reads := reads w |}
  | CreatePolicy policy =>
      {| engine := createPolicy policy (engine w); reads := reads w |}
  | Orchestrate userId emotionVector frictionScore =>
      snd (orchestrate clock userId emotionVector frictionScore w)
  end.

Definition calls (clock : nat → Instant) (w : World) (cs : list Call) : World :=
  foldl (call clock) w cs.

Definition newWorld : World := {| engine := newEngine; reads := 0 |}.

(** ** Vocabulary of the statements *)

(** The device identifiers of a user's array, in order. *)
Abbreviation ids l := (d_deviceId <$> l).

(** The predicate of [find] and [findIndex]. *)
Abbreviation hasId id := (λ d : SmartHomeDevice, d_deviceId d = id).

(** The first [n] observations that successive calls of a generator give. *)
Fixpoint draws {G : Type} (rng : G → Q * G) (g : G) (n : nat) : list Q :=
  match n with
  | O => []
  | S n' => let '(observation, g1) := rng g in observation :: draws rng g1 n'
  end.

(** The minutes since midnight of a clock reading. *)
Definition minuteOfDay (now : Instant) : nat :=
  60 * getHours now + getMinutes now.

(** The record a command leaves in place of [device]. *)
Definition commanded (clock : nat → Instant) (device : SmartHomeDevice)
    (command : string) (parameters : gmap string any) (n : nat) : SmartHomeDevice :=
  (sendDeviceCommand clock device command parameters n).1.2.

(** What the outcome of one action must be, given the devices registered
    when the policy starts. *)
Definition outcome_of (devs : list SmartHomeDevice) (a : ActionSpec)
    (o : ActionOutcome) : Prop :=
  o_deviceId o = a_deviceId a ∧ o_command o = a_command a ∧
  (a_deviceId a ∈ ids devs → o_success o = true ∧ o_error o = None) ∧
  (a_deviceId a ∉ ids devs →
     o_success o = false ∧ o_error o = Some "Device not found"%string).

(** The registry keeps, under every user, records of that user with
    pairwise different device identifiers. *)
Definition registry_ok (e : Engine) : Prop :=
  ∀ u l, devices e !! u = Some l →
         NoDup (ids l) ∧ Forall (λ d, d_userId d = u) l.

(** ** Sample inputs *)

(** A context with an empty feature vector. *)
Definition emptyFeatures (userId : string) (emotionVector : option (gmap string Q))
    (frictionScore : option Q) (multiDeviceContext : option bool)
    (deviceIds : option (list string)) : DecisionContext :=
  {| ctx_userId := userId; ctx_features := [];
     ctx_emotionVector := emotionVector; ctx_frictionScore := frictionScore;
     ctx_multiDeviceContext := multiDeviceContext; ctx_deviceIds := deviceIds |}.

(** Two devices in a multi-device context, and one feature. *)
Definition entangledContext : DecisionContext :=
  {| ctx_userId := "user-1"; ctx_features := [5 # 10]%Q;
     ctx_emotionVector := None; ctx_frictionScore := None;
     ctx_multiDeviceContext := Some true;
     ctx_deviceIds := Some ["phone"; "tablet"]%string |}.

(** [createSampleDevices], with a fixed time of registration. *)
Definition sampleDevices : list SmartHomeDevice :=
  [ {| d_id := "1"; d_userId := "user-123"; d_deviceId := "light-living-room";
       d_deviceName := "Living Room Light"; d_deviceType := light;
       d_state := {[ "brightness"%string := JNum 100;
                     "color"%string := JStr "white";
                     "on"%string := JBool true ]};
       d_lastSyncedAt := Some 1700000000000%Z |};
    {| d_id := "2"; d_userId := "user-123"; d_deviceId := "thermostat-main";
       d_deviceName := "Main Thermostat"; d_deviceType := thermostat;
       d_state := {[ "temperature"%string := JNum 72;
                     "mode"%string := JStr "auto";
                     "humidity"%string := JNum 45 ]};
       d_lastSyncedAt := Some 1700000000000%Z |};
    {| d_id := "3"; d_userId := "user-123"; d_deviceId := "speaker-bedroom";
       d_deviceName := "Bedroom Speaker"; d_deviceType := speaker;
       d_state := {[ "volume"%string := JNum 50;
                     "playing"%string := JBool false;
                     "currentTrack"%string := JNull ]};
       d_lastSyncedAt := Some 1700000000000%Z |} ].

Definition setBrightness : ActionSpec :=
  {| a_deviceId := "light-living-room"; a_command := "set_brightness";
     a_parameters := {[ "brightness"%string := JNum 60;
                        "color"%string := JStr "warm" ]} |}.

Definition playPlaylist : ActionSpec :=
  {| a_deviceId := "speaker-bedroom"; a_command := "play_playlist";
     a_parameters := {[ "playlist"%string := JStr "focus-music";
                        "volume"%string := JNum 30 ]} |}.

Definition setTemperature : ActionSpec :=
  {| a_deviceId := "thermostat-main"; a_command := "set_temperature";
     a_parameters := {[ "temperature"%string := JNum 70 ]} |}.

(** A command for a device that nobody registered. *)
Definition openBlinds : ActionSpec :=
  {| a_deviceId := "blinds-attic"; a_command := "open";
     a_parameters := {[ "position"%string := JNum 1 ]} |}.

Definition focusCondition : Condition :=
  {| c_emotionVector := Some {[ "focused"%string := (7 # 10)%Q ]};
     c_frictionScore := Some {| min := Some (3 # 10)%Q; max := Some (8 # 10)%Q |};
     c_timeOfDay := None |}.

(** [createSamplePolicy] *)
Definition samplePolicy : EnvironmentalPolicy :=
  {| p_id := "policy-1"; p_userId := "user-123"; p_policyName := "Focus Mode";
     p_condition := focusCondition;
     p_devices := [setBrightness; playPlaylist; setTemperature];
     p_isActive := true; p_createdAt := 1700000000000%Z |}.

(** The sample policy with a command for an unregistered device first. *)
Definition blindsPolicy : EnvironmentalPolicy :=
  {| p_id := "policy-2"; p_userId := "user-123"; p_policyName := "Open Up";
     p_condition := focusCondition;
     p_devices := [openBlinds; setBrightness; playPlaylist];
     p_isActive := true; p_createdAt := 1700000000000%Z |}.

(** The living-room light again, dimmed, as a client registers it anew. *)
Definition dimmedLight : SmartHomeDevice :=
  {| d_id := "1"; d_userId := "user-123"; d_deviceId := "light-living-room";
     d_deviceName := "Living Room Light"; d_deviceType := light;
     d_state := {[ "brightness"%string := JNum 50 ]};
     d_lastSyncedAt := None |}.

(** A device that the sample engine does not know yet. *)
Definition atticBlinds : SmartHomeDevice :=
  {| d_id := "4"; d_userId := "user-123"; d_deviceId := "blinds-attic";
     d_deviceName := "Attic Blinds"; d_deviceType := other;
     d_state := {[ "position"%string := JNum 0 ]};
     d_lastSyncedAt := None |}.

(** A policy whose commands are all for unregistered devices. *)
Definition atticPolicy : EnvironmentalPolicy :=
  {| p_id := "policy-4"; p_userId := "user-123"; p_policyName := "Attic";
     p_condition := focusCondition;
     p_devices := [openBlinds];
     p_isActive := true; p_createdAt := 1700000000000%Z |}.

(** An anchor state as the test suite stores it. *)
Definition sampleAnchor : AnchorState :=
  {| as_userId := "user-1";
     as_emotionVector := {[ "playful"%string := (7 # 10)%Q ]};
     as_frictionScore := (3 # 10)%Q;
     as_currentTask := None;
     as_clipboardHistory := ["text1"; "text2"]%string;
     as_timestamp := 1700000000000%Z |}.

(** A condition on an emotion that the vectors of the clients do not carry. *)
Definition calmCondition : Condition :=
  {| c_emotionVector := Some {[ "calm"%string := (5 # 10)%Q ]};
     c_frictionScore := None;
     c_timeOfDay := None |}.

Definition calmPolicy : EnvironmentalPolicy :=
  {| p_id := "policy-3"; p_userId := "user-123"; p_policyName := "Calm Mode";
     p_condition := calmCondition;
     p_devices := [setTemperature];
     p_isActive := true; p_createdAt := 1700000000000%Z |}.

(** The emotion vector of the test suite that matches the sample policy. *)
Definition focusedVector : gmap string Q :=
  {[ "bored"%string := (1 # 10)%Q; "rushed"%string := (2 # 10)%Q;
     "playful"%string := (3 # 10)%Q; "lonely"%string := (1 # 10)%Q;
     "focused"%string := (8 # 10)%Q; "tired"%string := (1 # 10)%Q;
     "hype"%string := (2 # 10)%Q ]}.

(** A clock that advances by a millisecond at every reading, at 12:30. *)
Definition sampleClock (n : nat) : Instant :=
  {| epochMs := 1700000000000 + Z.of_nat n; getHours := 12; getMinutes := 30 |}.

(** The engine of the test suite: three devices and the sample policy. *)
Definition sampleWorld : World :=
  calls sampleClock newWorld
        ((RegisterDevice <$> sampleDevices) ++ [CreatePolicy samplePolicy]).

(** * Properties *)

Local Close Scope Q_scope.

(** ** Comparisons of rationals *)

Lemma Qltb_lt (x y : Q) : JS.Qltb x y = true ↔ (x < y)%Q.
Proof.
  unfold JS.Qltb. rewrite negb_true_iff, <- not_true_iff_false, Qle_bool_iff.
  split; [apply Qnot_le_lt | apply Qlt_not_le].
Qed.

Lemma Qltb_ge (x y : Q) : JS.Qltb x y = false ↔ (y <= x)%Q.
Proof.
  unfold JS.Qltb. rewrite negb_false_iff. apply Qle_bool_iff.
Qed.

(** ** The collapse function *)

(** C8: [collapseQubit o] is FALSE iff [o < 0.33], TRUE iff
    [0.33 <= o < 0.66] and SUPERPOSITION iff [0.66 <= o]; the two cut
    points belong to the upper interval: 0.329 gives FALSE, 0.33 TRUE,
    0.659 TRUE and 0.66 SUPERPOSITION. *)
Theorem collapseQubit_cut_points (o : Q) :
  (collapseQubit o = FALSE ↔ (o < 33 # 100)%Q) ∧
  (collapseQubit o = TRUE ↔ (33 # 100 <= o)%Q ∧ (o < 66 # 100)%Q) ∧
  (collapseQubit o = SUPERPOSITION ↔ (66 # 100 <= o)%Q) ∧
  collapseQubit (329 # 1000) = FALSE ∧
  collapseQubit (33 # 100) = TRUE ∧
  collapseQubit (659 # 1000) = TRUE ∧
  collapseQubit (66 # 100) = SUPERPOSITION.
Proof.
  unfold collapseQubit.
  destruct (JS.Qltb o (33 # 100)) eqn:H1;
    [apply Qltb_lt in H1 | apply Qltb_ge in H1];
    (destruct (JS.Qltb o (66 # 100)) eqn:H2;
      [apply Qltb_lt in H2 | apply Qltb_ge in H2]);
    repeat split; try reflexivity; try discriminate; try assumption;
    intros; try lra.
Qed.

(** ** The decision engine *)

Lemma sort_length {A} (cmp : A → A → Z) (l : list A) :
  length (sort cmp l) = length l.
Proof.
  assert (Hins : ∀ x k, length (sort_insert cmp x k) = S (length k)).
  { intros x k. induction k as [|y k IH]; simpl; [done|].
    destruct (0 <? cmp x y)%Z; simpl; [by rewrite IH | done]. }
  induction l as [|x l IH]; simpl; [done|]. by rewrite Hins, IH.
Qed.

(** The sorted tallies have a first entry. *)
Lemma sorted_triCounts_length (trits : list TriState) :
  length (sort byCountDesc (triCounts trits)) = 3.
Proof. by rewrite sort_length. Qed.

(** The first entry of the sorted tallies, by cases on the three counts. *)
Lemma majorityTriState_cases (trits : list TriState) :
  let t := tally TRUE trits in
  let f := tally FALSE trits in
  let s := tally SUPERPOSITION trits in
  (f ≤ t ∧ s ≤ t ∧ majorityTriState trits = TRUE) ∨
  (t < f ∧ s ≤ f ∧ majorityTriState trits = FALSE) ∨
  (t < s ∧ f < s ∧ majorityTriState trits = SUPERPOSITION).
Proof.
  intros t f s. unfold majorityTriState, triCounts, sort, byCountDesc.
  fold t f s. simpl.
  repeat match goal with
         | |- context [(?a <? ?b)%Z] => destruct (Z.ltb_spec a b); simpl
         end;
    first [ left; split_and!; (reflexivity || lia)
          | right; left; split_and!; (reflexivity || lia)
          | right; right; split_and!; (reflexivity || lia) ].
Qed.

Lemma maxCount_eq (trits : list TriState) :
  maxCount trits =
  Nat.max (tally TRUE trits) (Nat.max (tally FALSE trits) (tally SUPERPOSITION trits)).
Proof. unfold maxCount, triCounts. simpl. lia. Qed.

Lemma collapseFeatures_length {G} (rng : G → Q * G) (features : list Q) :
  ∀ g, length (collapseFeatures rng g features).1 = length features.
Proof.
  induction features as [|x features IH]; intros g; simpl; [done|].
  destruct (rng g) as [o g1]. specialize (IH g1).
  destruct (collapseFeatures rng g1 features) as [trits g2]. simpl in *. lia.
Qed.

Lemma decide_triState {G} (rng : G → Q * G) (g : G) (context : DecisionContext) :
  triState (QuantumDecisionEngine.decide rng g context).1 =
  majorityTriState (collapseFeatures rng g (ctx_features context)).1.
Proof.
  unfold QuantumDecisionEngine.decide.
  destruct (collapseFeatures rng g (ctx_features context)) as [trits g'].
  simpl. by repeat case_match.
Qed.

Lemma decide_quatState {G} (rng : G → Q * G) (g : G) (context : DecisionContext) :
  quatState (QuantumDecisionEngine.decide rng g context).1 =
  if checkEntanglement context then Some ENTANGLEMENT else None.
Proof.
  unfold QuantumDecisionEngine.decide.
  destruct (collapseFeatures rng g (ctx_features context)) as [trits g'].
  simpl. by repeat case_match.
Qed.

Lemma decide_action {G} (rng : G → Q * G) (g : G) (context : DecisionContext) :
  action (QuantumDecisionEngine.decide rng g context).1 =
  match triState (QuantumDecisionEngine.decide rng g context).1 with
  | TRUE => if checkEntanglement context then ORCHESTRATE_SYNC else PROCEED_LOCAL
  | FALSE => SKIP_LOCAL
  | SUPERPOSITION => DEFER_UNTIL_COLLAPSE
  end.
Proof.
  unfold QuantumDecisionEngine.decide.
  destruct (collapseFeatures rng g (ctx_features context)) as [trits g'].
  simpl. destruct (checkEntanglement context), (majorityTriState trits); done.
Qed.

Lemma tally_total (trits : list TriState) :
  tally TRUE trits + tally FALSE trits + tally SUPERPOSITION trits = length trits.
Proof.
  unfold tally. induction trits as [|[] trits IH]; simpl in *; lia.
Qed.

Lemma maxCount_majority (trits : list TriState) :
  maxCount trits = tally (majorityTriState trits) trits.
Proof.
  rewrite maxCount_eq.
  destruct (majorityTriState_cases trits) as [(?&?&->)|[(?&?&->)|(?&?&->)]]; lia.
Qed.

(** With at least one feature the confidence is the share of the majority
    trit among the trits drawn. *)
Lemma decide_confidence_nonempty {G} (rng : G → Q * G) (g : G)
    (context : DecisionContext) :
  ctx_features context ≠ [] →
  let trits := (collapseFeatures rng g (ctx_features context)).1 in
  confidence (QuantumDecisionEngine.decide rng g context).1 =
  JS.Finite (inject_Z (Z.of_nat (tally (majorityTriState trits) trits))
             / inject_Z (Z.of_nat (length trits))).
Proof.
  intros Hne trits. subst trits.
  pose proof (collapseFeatures_length rng (ctx_features context) g) as Hlen.
  unfold QuantumDecisionEngine.decide.
  destruct (collapseFeatures rng g (ctx_features context)) as [trits g'].
  simpl in *. rewrite maxCount_majority.
  assert (Hpos : length trits ≠ 0)
    by (rewrite Hlen; by destruct (ctx_features context)).
  unfold JS.div.
  destruct (Qeq_bool (inject_Z (Z.of_nat (length trits))) 0) eqn:Hz;
    [|by repeat case_match].
  apply Qeq_bool_iff in Hz. unfold Qeq in Hz. simpl in Hz. lia.
Qed.

(** C5: [decide] draws one trit per feature and tallies them all; its
    majority trit has the highest tally among the trits drawn, and equal highest tallies are
    decided in the order TRUE, FALSE, SUPERPOSITION: the result is TRUE
    exactly when no tally exceeds TRUE's, FALSE exactly when FALSE's tally
    exceeds TRUE's and is not below SUPERPOSITION's, and SUPERPOSITION
    exactly when its tally exceeds both others. *)
Theorem decide_majority_priority {G} (rng : G → Q * G) (g : G)
    (context : DecisionContext) :
  let trits := (collapseFeatures rng g (ctx_features context)).1 in
  let m := triState (QuantumDecisionEngine.decide rng g context).1 in
  length trits = length (ctx_features context) ∧
  tally TRUE trits + tally FALSE trits + tally SUPERPOSITION trits = length trits ∧
  (∀ s, tally s trits ≤ tally m trits) ∧
  (m = TRUE ↔
     tally FALSE trits ≤ tally TRUE trits ∧
     tally SUPERPOSITION trits ≤ tally TRUE trits) ∧
  (m = FALSE ↔
     tally TRUE trits < tally FALSE trits ∧
     tally SUPERPOSITION trits ≤ tally FALSE trits) ∧
  (m = SUPERPOSITION ↔
     tally TRUE trits < tally SUPERPOSITION trits ∧
     tally FALSE trits < tally SUPERPOSITION trits).
Proof.
  intros trits m. subst m. rewrite decide_triState. fold trits.
  split; [apply collapseFeatures_length|].
  split; [apply tally_total|].
  destruct (majorityTriState_cases trits) as [(?&?&->)|[(?&?&->)|(?&?&->)]];
    (split; [intros []; lia|]); repeat split; intros; try done; try lia;
    destruct_and?; lia.
Qed.

Lemma checkEntanglement_iff (context : DecisionContext) :
  checkEntanglement context = true ↔
  ctx_multiDeviceContext context = Some true ∧
  ∃ ids, ctx_deviceIds context = Some ids ∧ 1 < length ids.
Proof.
  unfold checkEntanglement.
  destruct (ctx_multiDeviceContext context) as [[]|], (ctx_deviceIds context) as [ids|];
    split; try done; try (intros [? (? & ? & ?)]; done).
  - intros H%Nat.ltb_lt. eauto.
  - intros [_ (? & [= <-] & H)]. by apply Nat.ltb_lt.
Qed.

(** C2: on an empty feature vector [decide] draws nothing, takes TRUE (the
    first key of the tallies) as the majority and divides 0 by 0: the
    confidence it returns is NaN, not 0. *)
Theorem decide_empty_features_confidence_NaN {G} (rng : G → Q * G) (g : G)
    userId emotionVector frictionScore multiDeviceContext deviceIds :
  let r := QuantumDecisionEngine.decide rng g
             (emptyFeatures userId emotionVector frictionScore
                            multiDeviceContext deviceIds) in
  confidence r.1 = JS.NaN ∧ triState r.1 = TRUE ∧ r.2 = g.
Proof.
  unfold QuantumDecisionEngine.decide, emptyFeatures. simpl.
  by destruct (checkEntanglement _).
Qed.

(** C4, as stated, fails: with the generator seeded by 0 the single trit
    is FALSE and the action SKIP_LOCAL, with seed 42 the trit is
    SUPERPOSITION and the action DEFER_UNTIL_COLLAPSE, and both results
    carry ENTANGLEMENT. *)
Lemma decide_quatState_other_rows :
  checkEntanglement entangledContext = true ∧
  (let r := (QuantumDecisionEngine.decide QuantumDecisionEngine.seededRandom
               0%Z entangledContext).1 in
   triState r = FALSE ∧ action r = SKIP_LOCAL ∧
   quatState r = Some ENTANGLEMENT) ∧
  (let r := (QuantumDecisionEngine.decide QuantumDecisionEngine.seededRandom
               42%Z entangledContext).1 in
   triState r = SUPERPOSITION ∧ action r = DEFER_UNTIL_COLLAPSE ∧
   quatState r = Some ENTANGLEMENT) ∧
  ¬ (∀ (g : Z) (context : DecisionContext),
       let r := (QuantumDecisionEngine.decide QuantumDecisionEngine.seededRandom
                   g context).1 in
       quatState r = Some ENTANGLEMENT ↔
       checkEntanglement context = true ∧ triState r = TRUE).
Proof.
  split_and!; try (vm_compute; done).
  intros H. specialize (H 0%Z entangledContext). simpl in H.
  destruct H as [H _]. destruct H as [_ H]; [by vm_compute|].
  vm_compute in H. discriminate.
Qed.

(** C4, amended: the result of [decide] carries ENTANGLEMENT exactly when
    entanglement holds, whatever the majority trit, and carries no
    quatState exactly when it does not hold; the action is
    ORCHESTRATE_SYNC exactly when entanglement holds and the majority is
    TRUE, SKIP_LOCAL for a FALSE majority and DEFER_UNTIL_COLLAPSE for a
    SUPERPOSITION majority. *)
Theorem decide_quatState_follows_entanglement {G} (rng : G → Q * G) (g : G)
    (context : DecisionContext) :
  let r := (QuantumDecisionEngine.decide rng g context).1 in
  (quatState r = Some ENTANGLEMENT ↔ checkEntanglement context = true) ∧
  (quatState r = None ↔ checkEntanglement context = false) ∧
  (action r = ORCHESTRATE_SYNC ↔
     checkEntanglement context = true ∧ triState r = TRUE) ∧
  (action r = SKIP_LOCAL ↔ triState r = FALSE) ∧
  (action r = DEFER_UNTIL_COLLAPSE ↔ triState r = SUPERPOSITION).
Proof.
  intros r. subst r.
  rewrite decide_quatState, decide_action.
  destruct (checkEntanglement context),
    (triState (QuantumDecisionEngine.decide rng g context).1);
    intuition congruence.
Qed.

(** ** The friction score *)

Lemma or_zero_Some (v : Q) : (JS.or_zero (Some v) == v)%Q.
Proof.
  unfold JS.or_zero. destruct (Qeq_bool v 0) eqn:H; [|reflexivity].
  apply Qeq_bool_iff in H. by symmetry.
Qed.

Ltac unfold_calculate :=
  unfold FrictionScoreCalculator.calculate;
  cbn [batteryEntropy freeRam behavioralAuthErrorRate typingErrorRate
       fm_emotionVector];
  change (4 * 1024 * 1024 * 1024)%Q with 4294967296%Q.

(** The final clamp is monotone: compare the weighted sums. *)
Ltac clamp_mono :=
  unfold_calculate; apply Q.min_le_compat_l, Q.max_le_compat_l.

Lemma ramFriction_antitone (ram ram' : Q) :
  (ram <= ram')%Q →
  (Qmax 0 (1 - ram' / 4294967296) <= Qmax 0 (1 - ram / 4294967296))%Q.
Proof.
  intros H. apply Q.max_le_compat_l.
  assert (ram / 4294967296 <= ram' / 4294967296)%Q
    by (apply Qmult_le_compat_r; [assumption | discriminate]).
  lra.
Qed.

(** C6: the friction score lies in [0,1]; with the other inputs fixed it
    does not decrease when batteryEntropy, behavioralAuthErrorRate,
    typingErrorRate or the rushed or tired intensity grows, and does not
    increase when freeRam grows; zero rates with 4 GiB of free memory and
    no emotion vector give 0. *)
Theorem calculate_bounded_monotone (b ram a t : Q)
    (ev : option (gmap string Q)) (e : gmap string Q) :
  let score b ram a t ev :=
    FrictionScoreCalculator.calculate
      {| batteryEntropy := b; freeRam := ram;
         behavioralAuthErrorRate := a; typingErrorRate := t;
         fm_emotionVector := ev |} in
  (0 <= score b ram a t ev <= 1)%Q ∧
  (∀ b', b <= b' → score b ram a t ev <= score b' ram a t ev)%Q ∧
  (∀ a', a <= a' → score b ram a t ev <= score b ram a' t ev)%Q ∧
  (∀ t', t <= t' → score b ram a t ev <= score b ram a t' ev)%Q ∧
  (∀ ram', ram <= ram' → score b ram' a t ev <= score b ram a t ev)%Q ∧
  (∀ r r', r <= r' →
     score b ram a t (Some (<["rushed"%string := r]> e))
     <= score b ram a t (Some (<["rushed"%string := r']> e)))%Q ∧
  (∀ r r', r <= r' →
     score b ram a t (Some (<["tired"%string := r]> e))
     <= score b ram a t (Some (<["tired"%string := r']> e)))%Q ∧
  (score 0 (4 * 1024 * 1024 * 1024) 0 0 None == 0)%Q.
Proof.
  intros score. subst score. split_and!; intros.
  - unfold FrictionScoreCalculator.calculate.
    apply Q.min_glb; [lra | apply Q.le_max_l].
  - unfold FrictionScoreCalculator.calculate. apply Q.le_min_l.
  - clamp_mono. lra.
  - clamp_mono. lra.
  - clamp_mono. lra.
  - clamp_mono. pose proof (ramFriction_antitone ram ram'). lra.
  - clamp_mono.
    rewrite !lookup_insert_eq, !(lookup_insert_ne _ "rushed" "tired") by done.
    pose proof (or_zero_Some r). pose proof (or_zero_Some r'). lra.
  - clamp_mono.
    rewrite !lookup_insert_eq, !(lookup_insert_ne _ "tired" "rushed") by done.
    pose proof (or_zero_Some r). pose proof (or_zero_Some r'). lra.
  - reflexivity.
Qed.

(** The score of the sample of the test suite does not decrease when the
    battery entropy goes from 0.3 to 0.4. *)
Lemma calculate_bounded_monotone_witness :
  (FrictionScoreCalculator.calculate
     {| batteryEntropy := 3 # 10; freeRam := 2 * 1024 * 1024 * 1024;
        behavioralAuthErrorRate := 1 # 10; typingErrorRate := 5 # 100;
        fm_emotionVector := None |}
   <= FrictionScoreCalculator.calculate
        {| batteryEntropy := 4 # 10; freeRam := 2 * 1024 * 1024 * 1024;
           behavioralAuthErrorRate := 1 # 10; typingErrorRate := 5 # 100;
           fm_emotionVector := None |})%Q.
Proof.
  pose proof (calculate_bounded_monotone (3 # 10) (2 * 1024 * 1024 * 1024)
                (1 # 10) (5 # 100) None ∅) as (_ & Hb & _).
  apply Hb. vm_compute. discriminate.
Defined.

(** ** Executing a policy *)

Lemma lookup_same_ids (l l' : list SmartHomeDevice) j y :
  ids l' = ids l → l !! j = Some y →
  ∃ y', l' !! j = Some y' ∧ d_deviceId y' = d_deviceId y.
Proof.
  intros Hids Hj.
  assert (ids l' !! j = Some (d_deviceId y)) as Hj'
    by (by rewrite Hids, list_lookup_fmap, Hj).
  rewrite list_lookup_fmap in Hj'.
  apply fmap_Some in Hj' as (y' & ? & ?). eauto.
Qed.

(** Which record [find] returns depends on the identifiers only. *)
Lemma find_same_ids (l l' : list SmartHomeDevice) id i d :
  ids l' = ids l → list_find (hasId id) l = Some (i, d) →
  ∃ d', list_find (hasId id) l' = Some (i, d').
Proof.
  intros Hids (Hi & Hd & Hleast)%list_find_Some.
  destruct (lookup_same_ids l l' i d Hids Hi) as (d' & Hi' & Hd').
  exists d'. apply list_find_Some. split_and!; [done|congruence|].
  intros j y' Hj Hlt Hy'.
  destruct (lookup_same_ids l' l j y' (eq_sym Hids) Hj) as (y & Hy & Hidy).
  apply (Hleast j y Hy Hlt). congruence.
Qed.

Lemma find_registered (l : list SmartHomeDevice) id :
  id ∈ ids l ↔ ∃ i d, list_find (hasId id) l = Some (i, d).
Proof.
  split.
  - intros (d & -> & Hd)%list_elem_of_fmap.
    destruct (list_find_elem_of (hasId (d_deviceId d)) l d Hd eq_refl) as [[i d'] ?].
    eauto.
  - intros (i & d & (Hi & <- & _)%list_find_Some).
    apply list_elem_of_fmap. eauto using list_elem_of_lookup_2.
Qed.

Lemma find_unregistered (l : list SmartHomeDevice) id :
  id ∉ ids l ↔ list_find (hasId id) l = None.
Proof.
  rewrite find_registered. split.
  - intros H. destruct (list_find _ l) as [[i d]|]; [|done]. destruct H; eauto.
  - intros -> (i & d & ?). done.
Qed.

Section ExecutePolicy.
Variable clock : nat → Instant.

Lemma sendDeviceCommand_true device command parameters n :
  (sendDeviceCommand clock device command parameters n).1.1 = true.
Proof. done. Qed.

Lemma commanded_deviceId device command parameters n :
  d_deviceId (commanded clock device command parameters n) = d_deviceId device.
Proof. done. Qed.

Lemma commanded_userId device command parameters n :
  d_userId (commanded clock device command parameters n) = d_userId device.
Proof. done. Qed.

Lemma commanded_state device command parameters n k :
  k ≠ "lastCommand"%string → k ≠ "lastCommandTime"%string →
  d_state (commanded clock device command parameters n) !! k =
  (parameters ∪ d_state device) !! k.
Proof.
  intros. unfold commanded. simpl.
  by rewrite !lookup_insert_ne by done.
Qed.

Lemma executeActions_cons_found a rest devs n i device :
  list_find (hasId (a_deviceId a)) devs = Some (i, device) →
  executeActions clock (a :: rest) devs n =
  let r := executeActions clock rest
             (<[i := commanded clock device (a_command a) (a_parameters a) n]> devs)
             (S (S n)) in
  ({| o_deviceId := a_deviceId a; o_command := a_command a;
      o_success := true; o_error := None |} :: r.1.1, r.1.2, r.2).
Proof.
  intros Hfind. simpl. rewrite Hfind.
  by destruct (executeActions clock rest _ _) as [[??]?].
Qed.

Lemma executeActions_cons_missing a rest devs n :
  list_find (hasId (a_deviceId a)) devs = None →
  executeActions clock (a :: rest) devs n =
  let r := executeActions clock rest devs n in
  ({| o_deviceId := a_deviceId a; o_command := a_command a;
      o_success := false; o_error := Some "Device not found"%string |} :: r.1.1,
   r.1.2, r.2).
Proof.
  intros Hfind. simpl. rewrite Hfind.
  by destruct (executeActions clock rest _ _) as [[??]?].
Qed.

Lemma insert_commanded_ids (devs : list SmartHomeDevice) i device command parameters n :
  devs !! i = Some device →
  ids (<[i := commanded clock device command parameters n]> devs) = ids devs.
Proof.
  intros Hi. rewrite list_fmap_insert, commanded_deviceId.
  apply list_insert_id. by rewrite list_lookup_fmap, Hi.
Qed.

(** Commands change no identifier: the same devices stay registered. *)
Lemma executeActions_ids specs :
  ∀ devs n, ids (executeActions clock specs devs n).1.2 = ids devs.
Proof.
  induction specs as [|a rest IH]; intros devs n; [done|].
  destruct (list_find (hasId (a_deviceId a)) devs) as [[i device]|] eqn:Hfind.
  - rewrite (executeActions_cons_found _ _ _ _ _ _ Hfind). simpl.
    rewrite IH. apply insert_commanded_ids.
    by apply list_find_Some in Hfind as (? & _).
  - rewrite (executeActions_cons_missing _ _ _ _ Hfind). simpl. apply IH.
Qed.

Lemma executeActions_app specs1 specs2 :
  ∀ devs n,
    executeActions clock (specs1 ++ specs2) devs n =
    let r1 := executeActions clock specs1 devs n in
    let r2 := executeActions clock specs2 r1.1.2 r1.2 in
    (r1.1.1 ++ r2.1.1, r2.1.2, r2.2).
Proof.
  induction specs1 as [|a rest IH]; intros devs n.
  - simpl. by destruct (executeActions clock specs2 devs n) as [[??]?].
  - rewrite <- app_comm_cons.
    destruct (list_find (hasId (a_deviceId a)) devs) as [[i device]|] eqn:Hfind.
    + rewrite !(executeActions_cons_found _ _ _ _ _ _ Hfind). simpl.
      by rewrite IH.
    + rewrite !(executeActions_cons_missing _ _ _ _ Hfind). simpl.
      by rewrite IH.
Qed.

Lemma executeActions_outcomes specs :
  ∀ devs n,
    Forall2 (outcome_of devs) specs (executeActions clock specs devs n).1.1.
Proof.
  induction specs as [|a rest IH]; intros devs n; [by constructor|].
  destruct (list_find (hasId (a_deviceId a)) devs) as [[i device]|] eqn:Hfind.
  - rewrite (executeActions_cons_found _ _ _ _ _ _ Hfind). simpl.
    constructor.
    + split_and!; [done..|].
      intros Hnot%find_unregistered. congruence.
    + assert (Hids : ids (<[i := commanded clock device (a_command a) (a_parameters a) n]> devs)
                     = ids devs).
      { apply insert_commanded_ids. by apply list_find_Some in Hfind as (? & _). }
      eapply Forall2_impl; [apply IH|].
      intros a' o'. unfold outcome_of. by rewrite Hids.
  - rewrite (executeActions_cons_missing _ _ _ _ Hfind). simpl.
    constructor; [|apply IH].
    split_and!; [done..| |done].
    intros (i & d & ?)%find_registered. congruence.
Qed.
Lemma executeActions_userId specs u :
  ∀ devs n,
    Forall (λ d, d_userId d = u) devs →
    Forall (λ d, d_userId d = u) (executeActions clock specs devs n).1.2.
Proof.
  induction specs as [|a rest IH]; intros devs n Hall; [done|].
  destruct (list_find (hasId (a_deviceId a)) devs) as [[i device]|] eqn:Hfind.
  - rewrite (executeActions_cons_found _ _ _ _ _ _ Hfind). simpl.
    apply IH, Forall_insert; [done|].
    apply list_find_Some in Hfind as (Hi & _).
    rewrite commanded_userId. by eapply (Forall_lookup_1 _ _ _ _ Hall).
  - rewrite (executeActions_cons_missing _ _ _ _ Hfind). simpl. by apply IH.
Qed.

(** A key that no action on a device sets keeps its value: the merge
    is shallow and touches the keys of the parameters and the stamps
    only. *)
Lemma executeActions_state_key specs k :
  k ≠ "lastCommand"%string → k ≠ "lastCommandTime"%string →
  ∀ (devs : list SmartHomeDevice) n i d,
    devs !! i = Some d →
    (∀ a, a ∈ specs → a_deviceId a = d_deviceId d → a_parameters a !! k = None) →
    ∃ d', (executeActions clock specs devs n).1.2 !! i = Some d' ∧
          d_deviceId d' = d_deviceId d ∧ d_state d' !! k = d_state d !! k.
Proof.
  intros Hk1 Hk2.
  induction specs as [|a rest IH]; intros devs n i d Hi Hkeys; [by eauto|].
  assert (Hrest : ∀ a', a' ∈ rest → a_deviceId a' = d_deviceId d →
                        a_parameters a' !! k = None).
  { intros a' Ha'. apply Hkeys. by right. }
  destruct (list_find (hasId (a_deviceId a)) devs) as [[i' device]|] eqn:Hfind.
  - rewrite (executeActions_cons_found _ _ _ _ _ _ Hfind). simpl.
    apply list_find_Some in Hfind as (Hi' & Hid & _).
    destruct (decide (i' = i)) as [->|Hne].
    + assert (device = d) as -> by congruence.
      set (d1 := commanded clock d (a_command a) (a_parameters a) n).
      destruct (IH (<[i := d1]> devs) (S (S n)) i d1) as (d' & ? & ? & Hst).
      { apply list_lookup_insert_eq. by eapply lookup_lt_Some. }
      { done. }
      exists d'. split_and!; [done..|].
      rewrite Hst. unfold d1. rewrite commanded_state by done.
      apply lookup_union_r, Hkeys; [by left | done].
    + apply IH; [|done]. by rewrite list_lookup_insert_ne.
  - rewrite (executeActions_cons_missing _ _ _ _ Hfind). simpl. by apply IH.
Qed.

(** A parameter of an action on a registered device is in the state bag
    of that device when the policy ends, unless a later action on the same
    device sets the same key. *)
Lemma executeActions_merged before a after k v :
  k ≠ "lastCommand"%string → k ≠ "lastCommandTime"%string →
  ∀ (devs : list SmartHomeDevice) n,
    a_deviceId a ∈ ids devs →
    a_parameters a !! k = Some v →
    (∀ a', a' ∈ after → a_deviceId a' = a_deviceId a →
           a_parameters a' !! k = None) →
    ∃ i d',
      list_find (hasId (a_deviceId a))
                (executeActions clock (before ++ a :: after) devs n).1.2
      = Some (i, d') ∧
      d_state d' !! k = Some v.
Proof.
  intros Hk1 Hk2 devs n Hreg Hkv Hlater.
  set (final := (executeActions clock (before ++ a :: after) devs n).1.2).
  assert (Hfinal : ids final = ids devs) by apply executeActions_ids.
  unfold final. rewrite executeActions_app. cbv zeta. cbn [fst snd].
  set (r1 := executeActions clock before devs n).
  assert (Hids1 : ids r1.1.2 = ids devs) by apply executeActions_ids.
  rewrite <- Hids1 in Hreg. apply find_registered in Hreg as (i & d1 & Hfind).
  rewrite (executeActions_cons_found _ _ _ _ _ _ Hfind). cbv zeta. cbn [fst snd].
  set (d1' := commanded clock d1 (a_command a) (a_parameters a) r1.2).
  pose proof Hfind as (Hi & Hid & _)%list_find_Some.
  destruct (executeActions_state_key after k Hk1 Hk2
              (<[i := d1']> r1.1.2) (S (S r1.2)) i d1') as (d' & Hi' & Hid' & Hst).
  { apply list_lookup_insert_eq. by eapply lookup_lt_Some. }
  { intros a' Ha' Heq. apply Hlater; [done|]. by rewrite Heq. }
  exists i, d'. split.
  - destruct (find_same_ids r1.1.2
                (executeActions clock after (<[i := d1']> r1.1.2) (S (S r1.2))).1.2
                (a_deviceId a) i d1) as (d'' & Hfind'').
    { rewrite executeActions_ids. by apply insert_commanded_ids. }
    { done. }
    pose proof Hfind'' as (Hi'' & _)%list_find_Some.
    by replace d' with d'' by congruence.
  - rewrite Hst. unfold d1'. rewrite commanded_state by done.
    by apply lookup_union_Some_l.
Qed.

Lemma executePolicy_actions userId policy w :
  r_actions (executePolicy clock userId policy w).1 =
  (executeActions clock (p_devices policy) (getDevices userId (engine w))
                  (reads w)).1.1.
Proof.
  unfold executePolicy, getDevices.
  by destruct (executeActions clock _ _ _) as [[??]?].
Qed.

Lemma executePolicy_devices userId policy w :
  getDevices userId (engine (executePolicy clock userId policy w).2) =
  (executeActions clock (p_devices policy) (getDevices userId (engine w))
                  (reads w)).1.2.
Proof.
  unfold executePolicy, getDevices.
  pose proof (executeActions_ids (p_devices policy)
                (default [] (devices (engine w) !! userId)) (reads w)) as Hids.
  destruct (executeActions clock _ _ _) as [[actions devs'] n]. simpl in *.
  destruct (devices (engine w) !! userId) as [l|] eqn:Hl; simpl in *.
  - by rewrite lookup_insert_eq.
  - rewrite Hl. simpl. symmetry. by apply fmap_nil_inv in Hids.
Qed.

Lemma executePolicy_devices_other userId policy w u :
  u ≠ userId →
  devices (engine (executePolicy clock userId policy w).2) !! u =
  devices (engine w) !! u.
Proof.
  intros Hne. unfold executePolicy.
  destruct (executeActions clock _ _ _) as [[actions devs'] n]. simpl.
  destruct (devices (engine w) !! userId); [|done].
  by rewrite lookup_insert_ne.
Qed.

(** C7: executing a policy gives one outcome per action, in list order; an
    action on an unregistered device is recorded as failed with the error
    "Device not found" and the actions after it are still processed; an
    action on a registered device is recorded as successful and its
    parameters are in the state bag of the device afterwards (unless a
    later action on that device sets the same key), next to the keys that
    the actions leave alone; when its turn comes, the state bag of the
    device becomes the parameters over the old state, stamped with the
    command and the time. *)
Theorem executePolicy_continues_on_missing_device userId policy w :
  let devs := getDevices userId (engine w) in
  let r := (executePolicy clock userId policy w).1 in
  let devs' := getDevices userId (engine (executePolicy clock userId policy w).2) in
  r_policyId r = p_id policy ∧ r_policyName r = p_policyName policy ∧
  Forall2 (outcome_of devs) (p_devices policy) (r_actions r) ∧
  ids devs' = ids devs ∧
  (∀ before a after k v,
     p_devices policy = before ++ a :: after →
     a_deviceId a ∈ ids devs →
     a_parameters a !! k = Some v →
     k ≠ "lastCommand"%string → k ≠ "lastCommandTime"%string →
     (∀ a', a' ∈ after → a_deviceId a' = a_deviceId a →
            a_parameters a' !! k = None) →
     ∃ i d', list_find (hasId (a_deviceId a)) devs' = Some (i, d') ∧
             d_state d' !! k = Some v) ∧
  (∀ i d k,
     devs !! i = Some d →
     k ≠ "lastCommand"%string → k ≠ "lastCommandTime"%string →
     (∀ a, a ∈ p_devices policy → a_deviceId a = d_deviceId d →
           a_parameters a !! k = None) →
     ∃ d', devs' !! i = Some d' ∧ d_state d' !! k = d_state d !! k) ∧
  (∀ before a after,
     p_devices policy = before ++ a :: after →
     a_deviceId a ∈ ids devs →
     let turn := executeActions clock before devs (reads w) in
     ∃ i d d',
       list_find (hasId (a_deviceId a)) turn.1.2 = Some (i, d) ∧
       (executeActions clock (before ++ [a]) devs (reads w)).1.2
       = <[i := d']> turn.1.2 ∧
       d_state d' =
         <["lastCommandTime"%string := JNum (inject_Z (epochMs (clock turn.2)))]>
           (<["lastCommand"%string := JStr (a_command a)]>
              (a_parameters a ∪ d_state d)) ∧
       d_lastSyncedAt d' = Some (epochMs (clock (S turn.2))) ∧
       d_deviceId d' = d_deviceId d ∧ d_userId d' = d_userId d).
Proof.
  intros devs r devs'. subst r devs'.
  rewrite executePolicy_actions, executePolicy_devices. fold devs.
  split_and!.
  - unfold executePolicy. by destruct (executeActions clock _ _ _) as [[??]?].
  - unfold executePolicy. by destruct (executeActions clock _ _ _) as [[??]?].
  - apply executeActions_outcomes.
  - apply executeActions_ids.
  - intros before a after k v -> Hreg Hkv Hk1 Hk2 Hlater.
    by apply executeActions_merged.
  - intros i d k Hi Hk1 Hk2 Hkeys.
    destruct (executeActions_state_key (p_devices policy) k Hk1 Hk2
                devs (reads w) i d Hi Hkeys) as (d' & ? & _ & ?).
    eauto.
  - intros before a after _ Hreg turn.
    rewrite <- (executeActions_ids before devs (reads w)) in Hreg.
    apply find_registered in Hreg as (i & d & Hfind). fold turn in Hfind.
    exists i, d, (commanded clock d (a_command a) (a_parameters a) turn.2).
    split_and!; try done.
    rewrite executeActions_app. cbv zeta. cbn [fst snd]. fold turn.
    by rewrite (executeActions_cons_found _ _ _ _ _ _ Hfind).
Qed.

(** C10: the device command returns [true] whatever it is given, so an
    action on a registered device is always recorded with success and no
    error, and no outcome carries the error "Device command failed". *)
Theorem executePolicy_registered_succeeds userId policy w :
  let devs := getDevices userId (engine w) in
  let r := (executePolicy clock userId policy w).1 in
  (∀ device command parameters n,
     (sendDeviceCommand clock device command parameters n).1.1 = true) ∧
  (∀ j a o,
     p_devices policy !! j = Some a → r_actions r !! j = Some o →
     a_deviceId a ∈ ids devs →
     o_success o = true ∧ o_error o = None) ∧
  (∀ o, o ∈ r_actions r → o_error o ≠ Some "Device command failed"%string).
Proof.
  intros devs r. subst r. rewrite executePolicy_actions. fold devs.
  pose proof (executeActions_outcomes (p_devices policy) devs (reads w)) as Hout.
  split_and!.
  - done.
  - intros j a o Ha Ho Hreg.
    destruct (Forall2_lookup_lr _ _ _ _ _ _ Hout Ha Ho) as (_ & _ & Hok & _).
    by apply Hok.
  - intros o (j & Ho)%list_elem_of_lookup_1.
    destruct (Forall2_lookup_r _ _ _ _ _ Hout Ho) as (a & _ & _ & _ & Hok & Hmissing).
    destruct (decide (a_deviceId a ∈ ids devs)) as [Hreg|Hreg].
    + destruct (Hok Hreg) as [_ ->]. done.
    + destruct (Hmissing Hreg) as [_ ->]. done.
Qed.
End ExecutePolicy.

(** The sample policy with a command for an unregistered device in front:
    the brightness asked for is in the state of the light afterwards. *)
Lemma executePolicy_continues_on_missing_device_witness :
  ∃ i d',
    list_find (hasId "light-living-room")
      (getDevices "user-123"
         (engine (executePolicy sampleClock "user-123" blindsPolicy sampleWorld).2))
    = Some (i, d') ∧
    d_state d' !! "brightness"%string = Some (JNum 60).
Proof.
  pose proof (executePolicy_continues_on_missing_device sampleClock
                "user-123" blindsPolicy sampleWorld) as (_ & _ & _ & _ & H & _).
  apply (H [openBlinds] setBrightness [playPlaylist] "brightness"%string (JNum 60)).
  - reflexivity.
  - vm_compute. do 1 constructor.
  - vm_compute. reflexivity.
  - discriminate.
  - discriminate.
  - intros a' ->%list_elem_of_singleton. discriminate.
Defined.

(** In the sample policy with the unregistered device in front, the
    second action is on a registered device and is recorded as a success. *)
Lemma executePolicy_registered_succeeds_witness :
  ∃ o,
    r_actions (executePolicy sampleClock "user-123" blindsPolicy sampleWorld).1 !! 1
    = Some o ∧
    o_success o = true ∧ o_error o = None.
Proof.
  pose proof (executePolicy_registered_succeeds sampleClock
                "user-123" blindsPolicy sampleWorld) as (_ & H & _).
  eexists. split; [reflexivity|].
  apply (H 1 setBrightness).
  - reflexivity.
  - reflexivity.
  - vm_compute. do 1 constructor.
Defined.

(** ** Evaluating a condition *)

(** The emotion clause holds exactly when no emotion of the condition has
    a value in the input that is below its threshold; an emotion without a
    value in the input is no obstacle. *)
Lemma emotionClause_spec (condition : Condition) (emotionVector : gmap string Q) :
  emotionClause condition emotionVector = true ↔
  ∀ thresholds emotion threshold v,
    c_emotionVector condition = Some thresholds →
    thresholds !! emotion = Some threshold →
    emotionVector !! emotion = Some v →
    (threshold <= v)%Q.
Proof.
  unfold emotionClause. destruct (c_emotionVector condition) as [th|]; [|done].
  rewrite forallb_forall. split.
  - intros Hall ? emotion threshold v [= <-] Hth Hv.
    specialize (Hall (emotion, threshold)). simpl in Hall.
    rewrite Hv in Hall. simpl in Hall.
    apply Qltb_ge, negb_true_iff, Hall.
    by apply list_elem_of_In, elem_of_map_to_list.
  - intros Hle [emotion threshold] Hin%list_elem_of_In%elem_of_map_to_list.
    destruct (emotionVector !! emotion) as [v|] eqn:Hv; simpl; [|done].
    apply negb_true_iff, Qltb_ge. by eapply Hle.
Qed.

(** C1: a condition asks for calm of at least 0.5 and the input vector
    has no value for calm: the emotion clause holds, the condition matches
    and the policy is executed; the missing value does not count as 0. *)
Theorem evaluateCondition_missing_emotion_matches :
  focusedVector !! "calm"%string = None ∧
  c_emotionVector calmCondition = Some {[ "calm"%string := (5 # 10)%Q ]} ∧
  emotionClause calmCondition focusedVector = true ∧
  evaluateCondition sampleClock calmCondition focusedVector (5 # 10)%Q 0
  = (true, 0) ∧
  r_policyId <$>
    (orchestrate sampleClock "user-123" focusedVector (5 # 10)%Q
       (calls sampleClock sampleWorld [CreatePolicy calmPolicy])).1
  = ["policy-1"; "policy-3"]%string.
Proof. split_and!; by vm_compute. Qed.

(** ** The history *)

Lemma getHistory_any_user (u1 u2 : string) (limit : Z) (e : Engine) :
  getHistory u1 limit e = getHistory u2 limit e.
Proof. reflexivity. Qed.

(** C3: the history that [getHistory] returns for a user who never
    orchestrated is empty before another user's orchestration and holds
    that user's result after it. *)
Theorem getHistory_shows_other_users :
  let run := orchestrate sampleClock "user-123" focusedVector (5 # 10)%Q sampleWorld in
  policies (engine sampleWorld) !! "user-456"%string = None ∧
  getHistory "user-456" defaultLimit (engine sampleWorld) = [] ∧
  getHistory "user-456" defaultLimit (engine run.2) = run.1 ∧
  r_policyId <$> getHistory "user-456" defaultLimit (engine run.2)
  = ["policy-1"%string].
Proof. split_and!; by vm_compute. Qed.

(** ** The device registry *)

Lemma registry_ok_getDevices e u :
  registry_ok e →
  NoDup (ids (getDevices u e)) ∧ Forall (λ d, d_userId d = u) (getDevices u e).
Proof.
  intros Hok. unfold getDevices.
  destruct (devices e !! u) as [l|] eqn:Hl; simpl; [by apply Hok|].
  split; constructor.
Qed.

Lemma registerDevice_getDevices device e :
  getDevices (d_userId device) (registerDevice device e) =
  match list_find (hasId (d_deviceId device)) (getDevices (d_userId device) e) with
  | Some (i, _) => <[i := device]> (getDevices (d_userId device) e)
  | None => getDevices (d_userId device) e ++ [device]
  end.
Proof.
  unfold getDevices at 1. unfold registerDevice. simpl.
  rewrite lookup_insert_eq. simpl. unfold getDevices.
  by destruct (list_find _ _) as [[??]|].
Qed.

Lemma registerDevice_other device e u :
  u ≠ d_userId device →
  devices (registerDevice device e) !! u = devices e !! u.
Proof. intros. unfold registerDevice. simpl. by rewrite lookup_insert_ne. Qed.

Lemma registerDevice_ok device e :
  registry_ok e → registry_ok (registerDevice device e).
Proof.
  intros Hok u l Hl.
  destruct (decide (u = d_userId device)) as [->|Hne];
    [|rewrite registerDevice_other in Hl by done; by apply Hok].
  assert (l = getDevices (d_userId device) (registerDevice device e)) as ->
    by (unfold getDevices; by rewrite Hl).
  rewrite registerDevice_getDevices.
  destruct (registry_ok_getDevices e (d_userId device) Hok) as [Hnodup Hall].
  destruct (list_find _ _) as [[i old]|] eqn:Hfind.
  - apply list_find_Some in Hfind as (Hi & Hid & _). split.
    + rewrite list_fmap_insert, list_insert_id; [done|].
      by rewrite list_lookup_fmap, Hi, <- Hid.
    + by apply Forall_insert.
  - apply find_unregistered in Hfind. split.
    + rewrite fmap_app. apply NoDup_app. split_and!; [done| |apply NoDup_singleton].
      intros x Hx ->%list_elem_of_singleton. done.
    + apply Forall_app. split; [done|]. by constructor.
Qed.

Lemma executePolicy_ok clock userId policy w :
  registry_ok (engine w) →
  registry_ok (engine (executePolicy clock userId policy w).2).
Proof.
  intros Hok u l Hl.
  destruct (decide (u = userId)) as [->|Hne];
    [|rewrite executePolicy_devices_other in Hl by done; by apply Hok].
  assert (l = getDevices userId (engine (executePolicy clock userId policy w).2))
    as -> by (unfold getDevices; by rewrite Hl).
  rewrite executePolicy_devices.
  destruct (registry_ok_getDevices (engine w) userId Hok) as [Hnodup Hall].
  split; [by rewrite executeActions_ids | by apply executeActions_userId].
Qed.

Lemma orchestratePolicies_ok clock userId emotionVector frictionScore userPolicies :
  ∀ w, registry_ok (engine w) →
       registry_ok (engine (orchestratePolicies clock userId emotionVector
                              frictionScore userPolicies w).2).
Proof.
  induction userPolicies as [|policy rest IH]; intros w Hok; [done|].
  simpl. destruct (p_isActive policy); simpl; [|by apply IH].
  destruct (evaluateCondition clock _ _ _ _) as [matched n].
  destruct matched; [|by apply IH].
  pose proof (executePolicy_ok clock userId policy
                {| engine := engine w; reads := n |} Hok) as Hok'.
  destruct (executePolicy clock userId policy _) as [result w2].
  specialize (IH (logResult result w2) Hok').
  by destruct (orchestratePolicies clock _ _ _ rest _) as [results w3].
Qed.

Lemma call_ok clock w c :
  registry_ok (engine w) → registry_ok (engine (call clock w c)).
Proof.
  intros Hok. destruct c as [device|policy|userId emotionVector frictionScore]; simpl.
  - by apply registerDevice_ok.
  - done.
  - by apply orchestratePolicies_ok.
Qed.

Lemma calls_ok clock cs :
  ∀ w, registry_ok (engine w) → registry_ok (engine (calls clock w cs)).
Proof.
  induction cs as [|c cs IH]; intros w Hok; [done|].
  simpl. by apply IH, call_ok.
Qed.

Lemma newWorld_ok : registry_ok (engine newWorld).
Proof. intros u l Hl. simpl in Hl. by rewrite lookup_empty in Hl. Qed.

(** C9: after any calls of [registerDevice], [createPolicy] and
    [orchestrate] on a new engine, two records of the registry with the
    same user and device identifiers are the same entry; and registering
    a device whose identifiers are already there puts the new record in
    the place of the old one: the array keeps its length, the entry with
    these identifiers is the new record as a whole, and the arrays of the
    other users are left alone. *)
Theorem registry_one_record_per_device clock cs :
  let e := engine (calls clock newWorld cs) in
  (∀ u1 l1 i1 d1 u2 l2 i2 d2,
     devices e !! u1 = Some l1 → l1 !! i1 = Some d1 →
     devices e !! u2 = Some l2 → l2 !! i2 = Some d2 →
     d_userId d1 = d_userId d2 → d_deviceId d1 = d_deviceId d2 →
     u1 = u2 ∧ i1 = i2) ∧
  (∀ device,
     d_deviceId device ∈ ids (getDevices (d_userId device) e) →
     let before := getDevices (d_userId device) e in
     let after := getDevices (d_userId device) (registerDevice device e) in
     length after = length before ∧
     (∃ i old,
        before !! i = Some old ∧ d_deviceId old = d_deviceId device ∧
        after = <[i := device]> before) ∧
     (∀ j d, after !! j = Some d → d_deviceId d = d_deviceId device →
             d = device) ∧
     (∀ u, u ≠ d_userId device →
           devices (registerDevice device e) !! u = devices e !! u)).
Proof.
  intros e.
  assert (Hok : registry_ok e) by apply calls_ok, newWorld_ok.
  split.
  - intros u1 l1 i1 d1 u2 l2 i2 d2 Hl1 Hi1 Hl2 Hi2 Huser Hdev.
    destruct (Hok u1 l1 Hl1) as [Hnodup Hall1].
    destruct (Hok u2 l2 Hl2) as [_ Hall2].
    pose proof (Forall_lookup_1 _ _ _ _ Hall1 Hi1) as Hu1.
    pose proof (Forall_lookup_1 _ _ _ _ Hall2 Hi2) as Hu2.
    simpl in Hu1, Hu2.
    assert (u1 = u2) as <- by congruence.
    split; [done|].
    assert (l2 = l1) as -> by congruence.
    apply (NoDup_lookup (ids l1) i1 i2 (d_deviceId d1)); [done|..].
    + by rewrite list_lookup_fmap, Hi1.
    + by rewrite list_lookup_fmap, Hi2, Hdev.
  - intros device Hreg before after.
    apply find_registered in Hreg as (i & old & Hfind).
    assert (Hafter : after = <[i := device]> before).
    { unfold after, before. by rewrite registerDevice_getDevices, Hfind. }
    pose proof Hfind as (Hi & Hid & _)%list_find_Some.
    split_and!.
    + by rewrite Hafter, length_insert.
    + by exists i, old.
    + intros j d Hj Hd.
      destruct (registry_ok_getDevices _ (d_userId device)
                  (registerDevice_ok device e Hok)) as [Hnodup _].
      fold after in Hnodup.
      assert (after !! i = Some device) as Hi'.
      { rewrite Hafter. apply list_lookup_insert_eq. by eapply lookup_lt_Some. }
      assert (j = i) as ->.
      { apply (NoDup_lookup (ids after) j i (d_deviceId device)); [done|..].
        - by rewrite list_lookup_fmap, Hj, <- Hd.
        - by rewrite list_lookup_fmap, Hi'. }
      congruence.
    + intros u Hne. by apply registerDevice_other.
Qed.

(** Registering the living-room light a second time, dimmed, leaves three
    devices. *)
Lemma registry_one_record_per_device_witness :
  let e := engine (calls sampleClock newWorld (RegisterDevice <$> sampleDevices)) in
  length (getDevices "user-123" (registerDevice dimmedLight e)) = 3 ∧
  getDevices "user-123" (registerDevice dimmedLight e) !! 0 = Some dimmedLight.
Proof.
  intros e.
  pose proof (registry_one_record_per_device sampleClock
                (RegisterDevice <$> sampleDevices)) as [_ H].
  destruct (H dimmedLight) as (Hlen & _ & _ & _).
  - vm_compute. do 1 constructor.
  - split; [exact Hlen | reflexivity].
Defined.

(** * Further properties of the code *)

(** ** The generator and the decision *)

(** One trit is drawn per feature, from successive observations; the
    values of the features play no part. *)
Lemma collapseFeatures_draws {G} (rng : G → Q * G) (features : list Q) :
  ∀ g, (collapseFeatures rng g features).1
       = collapseQubit <$> draws rng g (length features).
Proof.
  induction features as [|x features IH]; intros g; simpl; [done|].
  destruct (rng g) as [o g1]. specialize (IH g1).
  destruct (collapseFeatures rng g1 features) as [trits g2]. simpl in *.
  by rewrite IH.
Qed.

Lemma collapseFeatures_same_length {G} (rng : G → Q * G) (f1 : list Q) :
  ∀ f2 g, length f1 = length f2 →
          collapseFeatures rng g f1 = collapseFeatures rng g f2.
Proof.
  induction f1 as [|x f1 IH]; intros [|y f2] g Hlen; simplify_eq/=; [done|].
  destruct (rng g) as [o g1]. by rewrite (IH f2 g1).
Qed.

(** X1: [decide] reads the features for their number only: two contexts
    with as many features and the same multi-device flag and device list
    get the same result and leave the generator in the same state,
    whatever the features, the user, the emotions and the friction score
    are. *)
Theorem decide_ignores_feature_values {G} (rng : G → Q * G) (g : G)
    (c1 c2 : DecisionContext) :
  length (ctx_features c1) = length (ctx_features c2) →
  ctx_multiDeviceContext c1 = ctx_multiDeviceContext c2 →
  ctx_deviceIds c1 = ctx_deviceIds c2 →
  QuantumDecisionEngine.decide rng g c1 = QuantumDecisionEngine.decide rng g c2.
Proof.
  intros Hlen Hflag Hids. unfold QuantumDecisionEngine.decide.
  rewrite (collapseFeatures_same_length rng _ _ g Hlen).
  unfold checkEntanglement. by rewrite Hflag, Hids.
Qed.

Lemma decide_ignores_feature_values_witness :
  QuantumDecisionEngine.decide QuantumDecisionEngine.seededRandom 42%Z
    entangledContext
  = QuantumDecisionEngine.decide QuantumDecisionEngine.seededRandom 42%Z
      {| ctx_userId := "user-2"; ctx_features := [(9 # 10)%Q];
         ctx_emotionVector := Some focusedVector;
         ctx_frictionScore := Some (4 # 10)%Q;
         ctx_multiDeviceContext := Some true;
         ctx_deviceIds := Some ["phone"; "tablet"]%string |}.
Proof.
  apply decide_ignores_feature_values; reflexivity.
Defined.




Lemma tally_le_length (s : TriState) (trits : list TriState) :
  tally s trits ≤ length trits.
Proof. pose proof (tally_total trits). destruct s; lia. Qed.

Lemma tally_all (s : TriState) (trits : list TriState) :
  tally s trits = length trits ↔ Forall (λ t, t = s) trits.
Proof.
  unfold tally. induction trits as [|t trits IH]; simpl.
  - split; [constructor | done].
  - pose proof (tally_le_length s trits) as Hle. unfold tally in Hle.
    destruct (TriState_eqb s t) eqn:Heq; simpl.
    + assert (t = s) as -> by (by destruct s, t).
      rewrite Forall_cons. split.
      * intros [= H]. split; [done|]. by apply IH.
      * intros [_ H]. f_equal. by apply IH.
    + split; [lia|]. intros [-> _]%Forall_cons. by destruct s.
Qed.

(** X3: with at least one feature the confidence is a finite number between
    1/3 and 1, and it is 1 exactly when every trit drawn is the majority
    trit. *)
Theorem decide_confidence_bounds {G} (rng : G → Q * G) (g : G)
    (context : DecisionContext) :
  ctx_features context ≠ [] →
  let r := (QuantumDecisionEngine.decide rng g context).1 in
  let trits := (collapseFeatures rng g (ctx_features context)).1 in
  ∃ q, confidence r = JS.Finite q ∧
       (1 # 3 <= q)%Q ∧ (q <= 1)%Q ∧
       ((q == 1)%Q ↔ Forall (λ t, t = triState r) trits).
Proof.
  intros Hne r trits. subst r.
  rewrite (decide_confidence_nonempty rng g context Hne), decide_triState.
  fold trits. set (m := majorityTriState trits).
  assert (Hlen : length trits ≠ 0).
  { unfold trits. rewrite collapseFeatures_length. by destruct (ctx_features context). }
  assert (Hmax : ∀ s, tally s trits ≤ tally m trits).
  { intros s. unfold m.
    destruct (majorityTriState_cases trits) as [(?&?&->)|[(?&?&->)|(?&?&->)]];
      destruct s; lia. }
  pose proof (tally_total trits) as Htot.
  pose proof (Hmax TRUE). pose proof (Hmax FALSE). pose proof (Hmax SUPERPOSITION).
  pose proof (tally_le_length m trits) as Hle.
  eexists. split; [reflexivity|].
  rewrite <- (tally_all m trits).
  unfold Qle, Qeq, Qdiv, Qmult, Qinv, inject_Z. simpl.
  destruct (length trits) as [|k] eqn:Hk; [done|].
  simpl. split_and!; try lia. 
Qed.

Lemma decide_confidence_bounds_witness :
  ∃ q, confidence (QuantumDecisionEngine.decide QuantumDecisionEngine.seededRandom
                     42%Z entangledContext).1 = JS.Finite q ∧
       (1 # 3 <= q)%Q ∧ (q <= 1)%Q.
Proof.
  destruct (decide_confidence_bounds QuantumDecisionEngine.seededRandom 42%Z
              entangledContext) as (q & Hq & H1 & H2 & _).
  - discriminate.
  - exists q. split_and!; assumption.
Defined.

(** ** The friction score, further *)

(** X4: of the emotion vector only the keys rushed and tired count: any
    other key can be set at will, and no vector at all gives the score of
    a vector where both are 0. *)
Theorem calculate_reads_rushed_and_tired_only (b ram a t : Q)
    (e : gmap string Q) (k : string) (v : Q) :
  let score ev :=
    FrictionScoreCalculator.calculate
      {| batteryEntropy := b; freeRam := ram;
         behavioralAuthErrorRate := a; typingErrorRate := t;
         fm_emotionVector := ev |} in
  (k ≠ "rushed"%string → k ≠ "tired"%string →
   score (Some (<[k := v]> e)) = score (Some e)) ∧
  (score None == score (Some ∅))%Q ∧
  (score None == score (Some {[ "rushed"%string := 0%Q; "tired"%string := 0%Q ]}))%Q.
Proof.
  intros score. subst score. split_and!.
  - intros Hr Ht. unfold FrictionScoreCalculator.calculate. simpl.
    by rewrite !lookup_insert_ne by done.
  - unfold_calculate. rewrite !lookup_empty.
    apply Q.min_compat; [reflexivity|]. apply Q.max_compat; [reflexivity|].
    unfold JS.or_zero. lra.
  - unfold_calculate.
    set (zeros := {[ "rushed"%string := 0%Q; "tired"%string := 0%Q ]}).
    assert (zeros !! "rushed"%string = Some 0%Q) as -> by reflexivity.
    assert (zeros !! "tired"%string = Some 0%Q) as -> by reflexivity.
    apply Q.min_compat; [reflexivity|]. apply Q.max_compat; [reflexivity|].
    unfold JS.or_zero. simpl. lra.
Qed.

Lemma calculate_reads_rushed_and_tired_only_witness :
  FrictionScoreCalculator.calculate
    {| batteryEntropy := 3 # 10; freeRam := 2 * 1024 * 1024 * 1024;
       behavioralAuthErrorRate := 1 # 10; typingErrorRate := 5 # 100;
       fm_emotionVector := Some (<["focused"%string := (8 # 10)%Q]> ∅) |}
  = FrictionScoreCalculator.calculate
      {| batteryEntropy := 3 # 10; freeRam := 2 * 1024 * 1024 * 1024;
         behavioralAuthErrorRate := 1 # 10; typingErrorRate := 5 # 100;
         fm_emotionVector := Some ∅ |}.
Proof.
  pose proof (calculate_reads_rushed_and_tired_only (3 # 10)
                (2 * 1024 * 1024 * 1024) (1 # 10) (5 # 100) ∅ "focused"
                (8 # 10)) as (H & _).
  apply H; discriminate.
Defined.



(** X6: free memory at or above 4 GiB contributes nothing: the score is
    the one for exactly 4 GiB. *)
Theorem calculate_freeRam_ceiling (b ram a t : Q) (ev : option (gmap string Q)) :
  (4294967296 <= ram)%Q →
  (FrictionScoreCalculator.calculate
     {| batteryEntropy := b; freeRam := ram;
        behavioralAuthErrorRate := a; typingErrorRate := t;
        fm_emotionVector := ev |}
   == FrictionScoreCalculator.calculate
        {| batteryEntropy := b; freeRam := 4 * 1024 * 1024 * 1024;
           behavioralAuthErrorRate := a; typingErrorRate := t;
           fm_emotionVector := ev |})%Q.
Proof.
  intros Hram. unfold_calculate.
  assert (1 <= ram / 4294967296)%Q as Hq.
  { apply Qle_shift_div_l; [reflexivity | lra]. }
  assert (Qmax 0 (1 - ram / 4294967296) == 0)%Q as ->
    by (apply Q.max_l; lra).
  assert (Qmax 0 (1 - 4294967296 / 4294967296) == 0)%Q as ->
    by reflexivity.
  reflexivity.
Qed.

Lemma calculate_freeRam_ceiling_witness :
  (FrictionScoreCalculator.calculate
     {| batteryEntropy := 3 # 10; freeRam := 8 * 1024 * 1024 * 1024;
        behavioralAuthErrorRate := 1 # 10; typingErrorRate := 5 # 100;
        fm_emotionVector := None |}
   == FrictionScoreCalculator.calculate
        {| batteryEntropy := 3 # 10; freeRam := 4 * 1024 * 1024 * 1024;
           behavioralAuthErrorRate := 1 # 10; typingErrorRate := 5 # 100;
           fm_emotionVector := None |})%Q.
Proof.
  apply calculate_freeRam_ceiling. vm_compute. discriminate.
Defined.

(** ** The anchor store *)

(** X7: a stored anchor state is the one read back for its user; the
    states of the other users stay as they are; a second state for the
    same user takes the place of the first. *)
Theorem storeState_getState (state : AnchorState)
    (states : gmap string AnchorState) :
  AnchorCore.getState (as_userId state) (AnchorCore.storeState state states)
  = Some state ∧
  (∀ u, u ≠ as_userId state →
        AnchorCore.getState u (AnchorCore.storeState state states)
        = AnchorCore.getState u states) ∧
  (∀ state', as_userId state' = as_userId state →
             AnchorCore.storeState state' (AnchorCore.storeState state states)
             = AnchorCore.storeState state' states).
Proof.
  unfold AnchorCore.getState, AnchorCore.storeState. split_and!.
  - apply lookup_insert_eq.
  - intros u Hu. by rewrite lookup_insert_ne.
  - intros state' ->. apply insert_insert_eq.
Qed.

Lemma storeState_getState_witness :
  AnchorCore.getState "user-2" (AnchorCore.storeState sampleAnchor ∅)
  = AnchorCore.getState "user-2" ∅.
Proof.
  pose proof (storeState_getState sampleAnchor ∅) as (_ & H & _).
  apply H. discriminate.
Defined.

(** X8: the synchronization reports success exactly when a state is stored
    for the user, whatever the devices named, an empty list included. *)
Theorem syncAcrossDevices_iff_stored (userId : string) (deviceIds : list string)
    (states : gmap string AnchorState) :
  (AnchorCore.syncAcrossDevices userId deviceIds states = true ↔
   is_Some (AnchorCore.getState userId states)) ∧
  AnchorCore.syncAcrossDevices userId deviceIds ∅ = false ∧
  (∀ state, as_userId state = userId →
            AnchorCore.syncAcrossDevices userId deviceIds
              (AnchorCore.storeState state states) = true).
Proof.
  unfold AnchorCore.syncAcrossDevices, AnchorCore.getState, AnchorCore.storeState.
  split_and!.
  - destruct (states !! userId); split; try done; by intros [??].
  - by rewrite lookup_empty.
  - intros state <-. by rewrite lookup_insert_eq.
Qed.

Lemma syncAcrossDevices_iff_stored_witness :
  AnchorCore.syncAcrossDevices "user-1" []
    (AnchorCore.storeState sampleAnchor ∅) = true.
Proof.
  pose proof (syncAcrossDevices_iff_stored "user-1" [] ∅) as (_ & _ & H).
  apply H. reflexivity.
Defined.

(** ** The order of strings and the time of the day *)

Lemma ascii_compare_refl (a : Ascii.ascii) : Ascii.compare a a = Eq.
Proof. apply N.compare_refl. Qed.

Lemma string_compare_refl (s : string) : String.compare s s = Eq.
Proof.
  induction s as [|a s IH]; simpl; [done|]. by rewrite ascii_compare_refl.
Qed.

Lemma string_compare_lt_trans (a : string) :
  ∀ b c, String.compare a b = Lt → String.compare b c = Lt →
         String.compare a c = Lt.
Proof.
  induction a as [|x a IH]; intros [|y b] [|z c]; simpl; try done.
  unfold Ascii.compare.
  destruct (N.compare_spec (Ascii.N_of_ascii x) (Ascii.N_of_ascii y)) as [Hxy|Hxy|Hxy];
    destruct (N.compare_spec (Ascii.N_of_ascii y) (Ascii.N_of_ascii z)) as [Hyz|Hyz|Hyz];
    try done; intros Hab Hbc.
  - rewrite Hxy, Hyz, N.compare_refl. by eapply IH.
  - rewrite Hxy. by apply N.compare_lt_iff in Hyz as ->.
  - rewrite <- Hyz. by apply N.compare_lt_iff in Hxy as ->.
  - assert (Ascii.N_of_ascii x < Ascii.N_of_ascii z)%N as Hxz by lia.
    by apply N.compare_lt_iff in Hxz as ->.
Qed.

Lemma string_ltb_leb (a b : string) : String.ltb a b = negb (String.leb b a).
Proof.
  unfold String.ltb, String.leb. rewrite (String.compare_antisym b a).
  by destruct (String.compare a b).
Qed.

Lemma string_leb_trans (a b c : string) :
  String.leb a b = true → String.leb b c = true → String.leb a c = true.
Proof.
  unfold String.leb.
  destruct (String.compare a b) eqn:Hab; try done;
    destruct (String.compare b c) eqn:Hbc; try done; intros _ _.
  - apply String.compare_eq_iff in Hab as ->. by rewrite Hbc.
  - apply String.compare_eq_iff in Hab as ->. by rewrite Hbc.
  - apply String.compare_eq_iff in Hbc as <-. by rewrite Hab.
  - by rewrite (string_compare_lt_trans a b c Hab Hbc).
Qed.

Lemma string_compare_app (a : string) :
  ∀ b s s', String.length a = String.length b →
            String.compare (a ++ s) (b ++ s')
            = match String.compare a b with
              | Eq => String.compare s s'
              | c => c
              end.
Proof.
  induction a as [|x a IH]; intros [|y b] s s' Hlen; simplify_eq/=; [done|].
  destruct (Ascii.compare x y); [|done..]. by apply IH.
Qed.

(** The two-digit strings of the numbers below 100 are ordered as the
    numbers are. *)
Lemma pad2_compare (i j : nat) :
  i < 100 → j < 100 →
  String.length (JS.pad2 i) = 2 ∧
  String.compare (JS.pad2 i) (JS.pad2 j) = Nat.compare i j.
Proof.
  intros Hi Hj.
  assert (forallb (λ i,
            Nat.eqb (String.length (JS.pad2 i)) 2 &&
            forallb (λ j,
              match String.compare (JS.pad2 i) (JS.pad2 j), Nat.compare i j with
              | Eq, Eq | Lt, Lt | Gt, Gt => true
              | _, _ => false
              end) (seq 0 100)) (seq 0 100) = true) as Hall
    by (vm_compute; reflexivity).
  rewrite forallb_forall in Hall.
  assert (In i (seq 0 100)) as Hini by (apply in_seq; lia).
  assert (In j (seq 0 100)) as Hinj by (apply in_seq; lia).
  apply Hall, andb_prop in Hini as [Hlen Hrow].
  split; [by apply Nat.eqb_eq|].
  rewrite forallb_forall in Hrow. apply Hrow in Hinj.
  by destruct (String.compare _ _), (Nat.compare i j).
Qed.

Lemma currentTime_compare (a b : Instant) :
  getHours a < 100 → getMinutes a < 100 →
  getHours b < 100 → getMinutes b < 100 →
  String.compare (currentTime a) (currentTime b)
  = match Nat.compare (getHours a) (getHours b) with
    | Eq => Nat.compare (getMinutes a) (getMinutes b)
    | c => c
    end.
Proof.
  intros Hha Hma Hhb Hmb. unfold currentTime.
  destruct (pad2_compare (getHours a) (getHours b) Hha Hhb) as [Hla Hh].
  destruct (pad2_compare (getHours b) (getHours a) Hhb Hha) as [Hlb _].
  destruct (pad2_compare (getMinutes a) (getMinutes b) Hma Hmb) as [_ Hm].
  rewrite string_compare_app by congruence.
  rewrite Hh. destruct (Nat.compare _ _); [|done..].
  simpl. exact Hm.
Qed.

(** For the hours and minutes of a day, the strings are ordered as the
    minutes since midnight are. *)
Lemma currentTime_leb (a b : Instant) :
  getHours a < 24 → getMinutes a < 60 →
  getHours b < 24 → getMinutes b < 60 →
  String.leb (currentTime a) (currentTime b) = true ↔
  minuteOfDay a ≤ minuteOfDay b.
Proof.
  intros Hha Hma Hhb Hmb. unfold String.leb, minuteOfDay.
  rewrite currentTime_compare by lia.
  destruct (Nat.compare_spec (getHours a) (getHours b));
    destruct (Nat.compare_spec (getMinutes a) (getMinutes b));
    split; try done; lia.
Qed.

(** ** Matching a condition, further *)

Lemma frictionClause_spec (condition : Condition) (frictionScore : Q) :
  frictionClause condition frictionScore = true ↔
  (∀ window lo, c_frictionScore condition = Some window →
                min window = Some lo → (lo <= frictionScore)%Q) ∧
  (∀ window hi, c_frictionScore condition = Some window →
                max window = Some hi → (frictionScore <= hi)%Q).
Proof.
  unfold frictionClause.
  destruct (c_frictionScore condition) as [[lo hi]|]; simpl; [|done].
  rewrite andb_true_iff, !negb_true_iff. split.
  - intros [Hlo Hhi]. split; intros ? ? [= <-] ?; simplify_eq/=;
      by apply Qltb_ge.
  - intros [Hlo Hhi]. split.
    + destruct lo as [lo|]; [|done]. by apply Qltb_ge, (Hlo _ lo eq_refl).
    + destruct hi as [hi|]; [|done]. by apply Qltb_ge, (Hhi _ hi eq_refl).
Qed.

Lemma evaluateCondition_clauses clock condition emotionVector frictionScore n :
  (evaluateCondition clock condition emotionVector frictionScore n).1 =
  emotionClause condition emotionVector && frictionClause condition frictionScore &&
  match c_timeOfDay condition with
  | Some window =>
      String.leb (start window) (currentTime (clock n)) &&
      String.leb (currentTime (clock n)) (end_ window)
  | None => true
  end.
Proof.
  unfold evaluateCondition.
  destruct (emotionClause _ _), (frictionClause _ _); simpl; try done.
  destruct (c_timeOfDay condition) as [window|]; simpl; [|done].
  by rewrite negb_orb, !string_ltb_leb, !negb_involutive.
Qed.

Lemma evaluateCondition_reads clock condition emotionVector frictionScore n :
  let r := evaluateCondition clock condition emotionVector frictionScore n in
  r.2 = n ∨ r.2 = S n.
Proof.
  unfold evaluateCondition.
  destruct (emotionClause _ _), (frictionClause _ _),
    (c_timeOfDay condition); simpl; auto.
Qed.

(** X9: a condition matches exactly when each clause it has holds: no
    emotion of the condition has a value in the input below its threshold
    (an emotion without a value is no obstacle), the friction score is
    within the bounds given, both inclusive, and the current time as
    HH:MM is, as a string, between start and end, both inclusive; a clause
    that is absent always holds. The clock is read only for a time window,
    when the first two clauses hold. *)
Theorem evaluateCondition_matches_iff clock condition emotionVector frictionScore n :
  let r := evaluateCondition clock condition emotionVector frictionScore n in
  (r.1 = true ↔
   (∀ thresholds emotion threshold v,
      c_emotionVector condition = Some thresholds →
      thresholds !! emotion = Some threshold →
      emotionVector !! emotion = Some v → (threshold <= v)%Q) ∧
   (∀ window lo, c_frictionScore condition = Some window →
                 min window = Some lo → (lo <= frictionScore)%Q) ∧
   (∀ window hi, c_frictionScore condition = Some window →
                 max window = Some hi → (frictionScore <= hi)%Q) ∧
   (∀ window, c_timeOfDay condition = Some window →
              String.leb (start window) (currentTime (clock n)) = true ∧
              String.leb (currentTime (clock n)) (end_ window) = true)) ∧
  (r.2 = n ∨ r.2 = S n) ∧
  (r.2 = S n ↔
   emotionClause condition emotionVector = true ∧
   frictionClause condition frictionScore = true ∧
   is_Some (c_timeOfDay condition)).
Proof.
  intros r. subst r. split_and!.
  - rewrite evaluateCondition_clauses, !andb_true_iff,
      emotionClause_spec, frictionClause_spec.
    destruct (c_timeOfDay condition) as [window|].
    + rewrite andb_true_iff. split.
      * intros [[He [Hlo Hhi]] Ht]. split_and!; try done. by intros ? [= <-].
      * intros (He & Hlo & Hhi & Ht). split_and!; try done; by apply Ht.
    + split.
      * intros [[He [Hlo Hhi]] _]. split_and!; done.
      * intros (He & Hlo & Hhi & _). done.
  - unfold evaluateCondition.
    destruct (emotionClause _ _), (frictionClause _ _),
      (c_timeOfDay condition); simpl; auto.
  - unfold evaluateCondition.
    destruct (emotionClause _ _), (frictionClause _ _),
      (c_timeOfDay condition); simpl; split; try done;
      try (intros (? & ? & ?); done); try (intros (_ & _ & [? ?]); done);
      try lia; eauto.
Qed.

(** X10: with a window whose start and end are times of the day written
    as HH:MM, the time clause holds exactly from the start to the end,
    both minutes included. *)
Theorem evaluateCondition_time_window clock condition emotionVector frictionScore
    n (s e : Instant) :
  getHours s < 24 → getMinutes s < 60 →
  getHours e < 24 → getMinutes e < 60 →
  getHours (clock n) < 24 → getMinutes (clock n) < 60 →
  c_timeOfDay condition
  = Some {| start := currentTime s; end_ := currentTime e |} →
  (evaluateCondition clock condition emotionVector frictionScore n).1 = true ↔
  emotionClause condition emotionVector = true ∧
  frictionClause condition frictionScore = true ∧
  minuteOfDay s ≤ minuteOfDay (clock n) ≤ minuteOfDay e.
Proof.
  intros Hhs Hms Hhe Hme Hhn Hmn Hw.
  rewrite evaluateCondition_clauses, Hw, !andb_true_iff. simpl.
  rewrite !currentTime_leb by done. tauto.
Qed.

Lemma evaluateCondition_time_window_witness :
  (evaluateCondition sampleClock
     {| c_emotionVector := None; c_frictionScore := None;
        c_timeOfDay := Some {| start := "09:00"; end_ := "17:00" |} |}
     focusedVector (5 # 10)%Q 0).1 = true.
Proof.
  apply (evaluateCondition_time_window sampleClock _ focusedVector (5 # 10)%Q 0
           {| epochMs := 0; getHours := 9; getMinutes := 0 |}
           {| epochMs := 0; getHours := 17; getMinutes := 0 |});
    try (simpl; lia); try reflexivity.
  split_and!; try reflexivity; vm_compute; lia.
Defined.

(** X11: a window whose end is before its start as a string, as one that
    crosses midnight is, never matches, at any time. *)
Theorem evaluateCondition_window_past_midnight clock condition emotionVector
    frictionScore n window :
  c_timeOfDay condition = Some window →
  String.ltb (end_ window) (start window) = true →
  (evaluateCondition clock condition emotionVector frictionScore n).1 = false.
Proof.
  intros Hw Hlt. rewrite evaluateCondition_clauses, Hw.
  rewrite string_ltb_leb, negb_true_iff in Hlt.
  destruct (String.leb (start window) (currentTime (clock n))) eqn:H1;
    destruct (String.leb (currentTime (clock n)) (end_ window)) eqn:H2;
    rewrite ?andb_false_r; try done.
  by rewrite (string_leb_trans _ _ _ H1 H2) in Hlt.
Qed.

Lemma evaluateCondition_window_past_midnight_witness :
  (evaluateCondition sampleClock
     {| c_emotionVector := None; c_frictionScore := None;
        c_timeOfDay := Some {| start := "22:00"; end_ := "06:00" |} |}
     focusedVector (5 # 10)%Q 0).1 = false.
Proof.
  apply (evaluateCondition_window_past_midnight sampleClock _ focusedVector
           (5 # 10)%Q 0 {| start := "22:00"; end_ := "06:00" |});
    reflexivity.
Defined.

(** ** What an orchestration changes *)

Lemma executePolicy_frame clock userId policy w :
  let w' := (executePolicy clock userId policy w).2 in
  policies (engine w') = policies (engine w) ∧
  orchestrationHistory (engine w') = orchestrationHistory (engine w) ∧
  reads w < reads w' ∧
  (devices (engine w) !! userId = None → devices (engine w') = devices (engine w)).
Proof.
  unfold executePolicy.
  assert (Hreads : ∀ specs devs n, n ≤ (executeActions clock specs devs n).2).
  { induction specs as [|a rest IH]; intros devs n; simpl; [done|].
    destruct (list_find _ devs) as [[i device]|].
    - specialize (IH (<[i := (sendDeviceCommand clock device (a_command a)
                                (a_parameters a) n).1.2]> devs) (S (S n))).
      simpl in *. destruct (executeActions clock rest _ _) as [[??]?].
      simpl in *. lia.
    - specialize (IH devs n).
      destruct (executeActions clock rest _ _) as [[??]?]. simpl in *. lia. }
  specialize (Hreads (p_devices policy) (default [] (devices (engine w) !! userId))
                     (reads w)).
  destruct (executeActions clock _ _ _) as [[actions devs'] n]. simpl in *.
  split_and!; try done; [lia|]. by intros ->.
Qed.

Lemma orchestratePolicies_effects clock userId emotionVector frictionScore ps :
  ∀ w,
    let r := orchestratePolicies clock userId emotionVector frictionScore ps w in
    orchestrationHistory (engine r.2) = orchestrationHistory (engine w) ++ r.1 ∧
    policies (engine r.2) = policies (engine w) ∧
    (∀ u, u ≠ userId → devices (engine r.2) !! u = devices (engine w) !! u) ∧
    ids (getDevices userId (engine r.2)) = ids (getDevices userId (engine w)) ∧
    reads w ≤ reads r.2 ∧
    (devices (engine w) !! userId = None →
     devices (engine r.2) = devices (engine w)).
Proof.
  induction ps as [|policy rest IH]; intros w; simpl.
  { split_and!; try done. by rewrite app_nil_r. }
  destruct (p_isActive policy); simpl; [|apply IH].
  pose proof (evaluateCondition_reads clock (p_condition policy)
                emotionVector frictionScore (reads w)) as Hn.
  destruct (evaluateCondition clock _ _ _ _) as [matched n]. simpl in Hn.
  set (w1 := {| engine := engine w; reads := n |}).
  destruct matched.
  - pose proof (executePolicy_frame clock userId policy w1) as (Hp & Hh & Hr & Hd).
    pose proof (executePolicy_devices clock userId policy w1) as Hdev.
    pose proof (executePolicy_devices_other clock userId policy w1) as Hother.
    destruct (executePolicy clock userId policy w1) as [result w2].
    simpl in *.
    destruct (IH (logResult result w2)) as (IHh & IHp & IHo & IHi & IHr & IHd).
    destruct (orchestratePolicies clock _ _ _ rest _) as [results w3].
    simpl in *. split_and!.
    + by rewrite IHh, Hh, <- app_assoc.
    + by rewrite IHp, Hp.
    + intros u Hu. by rewrite IHo, Hother.
    + rewrite IHi. unfold getDevices at 1. simpl. fold (getDevices userId (engine w2)).
      rewrite Hdev. apply executeActions_ids.
    + lia.
    + intros Hnone. rewrite IHd; [by apply Hd|]. by rewrite (Hd Hnone).
  - destruct (IH w1) as (IHh & IHp & IHo & IHi & IHr & IHd).
    destruct (orchestratePolicies clock _ _ _ rest w1) as [results w3].
    simpl in *. split_and!; try done. lia.
Qed.



Lemma executePolicy_result clock userId policy w :
  let r := (executePolicy clock userId policy w).1 in
  r_policyId r = p_id policy ∧ r_policyName r = p_policyName policy ∧
  length (r_actions r) = length (p_devices policy).
Proof.
  pose proof (executeActions_outcomes clock (p_devices policy)
                (getDevices userId (engine w)) (reads w)) as Hout.
  apply Forall2_length in Hout.
  rewrite <- executePolicy_actions in Hout.
  unfold executePolicy in *.
  destruct (executeActions clock _ _ _) as [[actions devs'] n]. simpl in *.
  by split_and!.
Qed.

Lemma orchestratePolicies_results clock userId emotionVector frictionScore ps :
  ∀ w,
    ∃ executed,
      executed `sublist_of` ps ∧
      Forall (λ p, p_isActive p = true ∧
                   emotionClause (p_condition p) emotionVector = true ∧
                   frictionClause (p_condition p) frictionScore = true) executed ∧
      Forall2 (λ p r, r_policyId r = p_id p ∧ r_policyName r = p_policyName p ∧
                      length (r_actions r) = length (p_devices p))
              executed
              (orchestratePolicies clock userId emotionVector frictionScore ps w).1.
Proof.
  induction ps as [|policy rest IH]; intros w; simpl.
  { exists []. split_and!; constructor. }
  destruct (p_isActive policy) eqn:Hactive; simpl.
  2:{ destruct (IH w) as (executed & ? & ? & ?).
      exists executed. split_and!; [by apply sublist_cons_r; left|done..]. }
  pose proof (evaluateCondition_clauses clock (p_condition policy)
                emotionVector frictionScore (reads w)) as Hclauses.
  destruct (evaluateCondition clock _ _ _ _) as [matched n]. simpl in Hclauses.
  set (w1 := {| engine := engine w; reads := n |}).
  destruct matched.
  - symmetry in Hclauses. apply andb_prop in Hclauses as [[He Hf]%andb_prop _].
    pose proof (executePolicy_result clock userId policy w1) as Hresult.
    destruct (executePolicy clock userId policy w1) as [result w2].
    destruct (IH (logResult result w2)) as (executed & Hsub & Hall & Hres).
    destruct (orchestratePolicies clock _ _ _ rest _) as [results w3].
    exists (policy :: executed). split_and!.
    + by apply sublist_skip.
    + by constructor.
    + by constructor.
  - destruct (IH w1) as (executed & ? & ? & ?).
    exists executed. split_and!; [by apply sublist_cons_r; left|done..].
Qed.

(** X13: the results of an orchestration answer, in order, to some of the
    user's policies, each of them active and with its emotion and friction
    clauses holding; each result carries the identifier and the name of
    its policy and one outcome per action. When the user has no policy, or
    only inactive ones, there is no result and nothing changes, the clock
    not being read. *)
Theorem orchestrate_results_from_active_policies clock userId emotionVector
    frictionScore w :
  let r := orchestrate clock userId emotionVector frictionScore w in
  (∃ executed,
     executed `sublist_of` getPolicies userId (engine w) ∧
     Forall (λ p, p_isActive p = true ∧
                  emotionClause (p_condition p) emotionVector = true ∧
                  frictionClause (p_condition p) frictionScore = true) executed ∧
     Forall2 (λ p r, r_policyId r = p_id p ∧ r_policyName r = p_policyName p ∧
                     length (r_actions r) = length (p_devices p))
             executed r.1) ∧
  (Forall (λ p, p_isActive p = false) (getPolicies userId (engine w)) →
   r = ([], w)).
Proof.
  intros r. subst r. unfold orchestrate, getPolicies. split.
  - apply orchestratePolicies_results.
  - generalize (default [] (policies (engine w) !! userId)). intros ps Hall.
    induction Hall as [|p ps Hp _ IH]; simpl; [done|]. by rewrite Hp.
Qed.

Lemma orchestrate_results_from_active_policies_witness :
  orchestrate sampleClock "user-456" focusedVector (5 # 10)%Q sampleWorld
  = ([], sampleWorld).
Proof.
  pose proof (orchestrate_results_from_active_policies sampleClock "user-456"
                focusedVector (5 # 10)%Q sampleWorld) as [_ H].
  apply H. constructor.
Defined.

(** X14: when no policy of the user has a time window, the policies that
    are executed are exactly the active ones whose emotion and friction
    clauses hold, in the order of their creation. *)
Theorem orchestrate_without_time_windows clock userId emotionVector
    frictionScore w :
  Forall (λ p, c_timeOfDay (p_condition p) = None)
         (getPolicies userId (engine w)) →
  r_policyId <$> (orchestrate clock userId emotionVector frictionScore w).1
  = p_id <$> List.filter
               (λ p, p_isActive p &&
                     emotionClause (p_condition p) emotionVector &&
                     frictionClause (p_condition p) frictionScore)
               (getPolicies userId (engine w)).
Proof.
  unfold orchestrate, getPolicies.
  generalize (default [] (policies (engine w) !! userId)). intros ps Hall.
  revert w. induction Hall as [|p ps Hp _ IH]; intros w; simpl; [done|].
  destruct (p_isActive p); simpl; [|apply IH].
  pose proof (evaluateCondition_clauses clock (p_condition p)
                emotionVector frictionScore (reads w)) as Hclauses.
  rewrite Hp, andb_true_r in Hclauses.
  destruct (evaluateCondition clock _ _ _ _) as [matched n]. simpl in Hclauses.
  rewrite <- Hclauses. destruct matched; [|apply IH].
  pose proof (executePolicy_result clock userId p
                {| engine := engine w; reads := n |}) as (Hid & _).
  destruct (executePolicy clock userId p _) as [result w2].
  specialize (IH (logResult result w2)).
  destruct (orchestratePolicies clock _ _ _ ps _) as [results w3].
  simpl in *. rewrite Hid. f_equal. exact IH.
Qed.

Lemma orchestrate_without_time_windows_witness :
  r_policyId <$> (orchestrate sampleClock "user-123" focusedVector (5 # 10)%Q
                    sampleWorld).1
  = ["policy-1"%string].
Proof.
  rewrite (orchestrate_without_time_windows sampleClock "user-123" focusedVector
             (5 # 10)%Q sampleWorld).
  - reflexivity.
  - repeat constructor.
Defined.

(** ** Registering devices and creating policies *)

Lemma registerDevice_find device e :
  ∃ i, list_find (hasId (d_deviceId device))
         (getDevices (d_userId device) (registerDevice device e))
       = Some (i, device).
Proof.
  rewrite registerDevice_getDevices.
  set (l := getDevices (d_userId device) e).
  destruct (list_find (hasId (d_deviceId device)) l) as [[i old]|] eqn:Hfind.
  - exists i. apply list_find_Some in Hfind as (Hi & Hid & Hleast).
    apply list_find_Some. split_and!; [|done|].
    + apply list_lookup_insert_eq. by eapply lookup_lt_Some.
    + intros j y Hj Hlt. rewrite list_lookup_insert_ne in Hj by lia.
      by apply (Hleast j).
  - exists (length l). apply list_find_None in Hfind.
    apply list_find_Some. split_and!; [|done|].
    + by rewrite lookup_app_r, Nat.sub_diag.
    + intros j y Hj Hlt. rewrite lookup_app_l in Hj by done.
      by apply (Forall_lookup_1 _ _ _ _ Hfind Hj).
Qed.

(** X15: a device that has been registered is the record that a search by
    its identifier finds among its user's devices; registering the same
    record again changes nothing; registering leaves the policies and the
    history as they are. *)
Theorem registerDevice_registers device e :
  (∃ i, list_find (hasId (d_deviceId device))
          (getDevices (d_userId device) (registerDevice device e))
        = Some (i, device)) ∧
  registerDevice device (registerDevice device e) = registerDevice device e ∧
  policies (registerDevice device e) = policies e ∧
  orchestrationHistory (registerDevice device e) = orchestrationHistory e.
Proof.
  split_and!; [apply registerDevice_find | | done..].
  destruct (registerDevice_find device e) as [i Hfind].
  set (e' := registerDevice device e) in *.
  unfold getDevices in Hfind.
  assert (devices e' !! d_userId device
          = Some (default [] (devices e' !! d_userId device))) as Hl.
  { unfold e', registerDevice. simpl. by rewrite lookup_insert_eq. }
  unfold registerDevice at 1. rewrite Hfind.
  pose proof Hfind as (Hi & _)%list_find_Some.
  rewrite (list_insert_id _ _ _ Hi), (insert_id _ _ _ Hl).
  by destruct e'.
Qed.

(** X16: a device whose identifier is new for its user is put after the
    devices the user has, which stay as they are and in their order. *)
Theorem registerDevice_new_is_appended device e :
  d_deviceId device ∉ ids (getDevices (d_userId device) e) →
  getDevices (d_userId device) (registerDevice device e)
  = getDevices (d_userId device) e ++ [device].
Proof.
  intros Hnew%find_unregistered.
  by rewrite registerDevice_getDevices, Hnew.
Qed.

Lemma registerDevice_new_is_appended_witness :
  getDevices "user-123" (registerDevice atticBlinds (engine sampleWorld))
  = getDevices "user-123" (engine sampleWorld) ++ [atticBlinds].
Proof.
  apply (registerDevice_new_is_appended atticBlinds (engine sampleWorld)).
  vm_compute. intros H. repeat (inversion H as [|? ? ? H']; clear H; rename H' into H).
Defined.

(** X17: a new policy is put after the policies its user has; nothing
    tells two policies with the same identifier apart, so a policy created
    twice is there twice; the policies of the other users, the devices and
    the history stay as they are. *)
Theorem createPolicy_appends policy e :
  getPolicies (p_userId policy) (createPolicy policy e)
  = getPolicies (p_userId policy) e ++ [policy] ∧
  getPolicies (p_userId policy) (createPolicy policy (createPolicy policy e))
  = getPolicies (p_userId policy) e ++ [policy; policy] ∧
  (∀ u, u ≠ p_userId policy →
        getPolicies u (createPolicy policy e) = getPolicies u e) ∧
  devices (createPolicy policy e) = devices e ∧
  orchestrationHistory (createPolicy policy e) = orchestrationHistory e.
Proof.
  unfold getPolicies, createPolicy. simpl. split_and!; try done.
  - by rewrite lookup_insert_eq.
  - rewrite !lookup_insert_eq. simpl. by rewrite <- app_assoc.
  - intros u Hu. by rewrite lookup_insert_ne.
Qed.

Lemma createPolicy_appends_witness :
  getPolicies "user-456" (createPolicy samplePolicy (engine sampleWorld))
  = getPolicies "user-456" (engine sampleWorld).
Proof.
  pose proof (createPolicy_appends samplePolicy (engine sampleWorld))
    as (_ & _ & H & _).
  apply H. discriminate.
Defined.

(** ** Nothing is ever removed *)

Lemma registerDevice_ids_grow device e u :
  ids (getDevices u e) `prefix_of` ids (getDevices u (registerDevice device e)).
Proof.
  destruct (decide (u = d_userId device)) as [->|Hne].
  - rewrite registerDevice_getDevices.
    destruct (list_find _ _) as [[i old]|] eqn:Hfind.
    + apply list_find_Some in Hfind as (Hi & Hid & _).
      rewrite list_fmap_insert, list_insert_id; [done|].
      by rewrite list_lookup_fmap, Hi, <- Hid.
    + rewrite fmap_app. by apply prefix_app_r.
  - unfold getDevices. by rewrite registerDevice_other.
Qed.

Lemma call_grows clock w c :
  let w' := call clock w c in
  orchestrationHistory (engine w) `prefix_of` orchestrationHistory (engine w') ∧
  (∀ u, getPolicies u (engine w) `prefix_of` getPolicies u (engine w')) ∧
  (∀ u, ids (getDevices u (engine w))
        `prefix_of` ids (getDevices u (engine w'))).
Proof.
  destruct c as [device|policy|userId emotionVector frictionScore]; simpl.
  - split_and!; [done..|]. intros u. apply registerDevice_ids_grow.
  - split_and!; [done| |done]. intros u. unfold getPolicies, createPolicy. simpl.
    destruct (decide (u = p_userId policy)) as [->|Hne].
    + rewrite lookup_insert_eq. simpl. by apply prefix_app_r.
    + by rewrite lookup_insert_ne.
  - unfold orchestrate.
    destruct (orchestratePolicies_effects clock userId emotionVector frictionScore
                (default [] (policies (engine w) !! userId)) w)
      as (Hh & Hp & Ho & Hi & _ & _).
    split_and!.
    + rewrite Hh. by apply prefix_app_r.
    + intros u. unfold getPolicies. by rewrite Hp.
    + intros u. destruct (decide (u = userId)) as [->|Hne]; [by rewrite Hi|].
      unfold getDevices. by rewrite Ho.
Qed.

(** X18: no call removes anything: after any calls of [registerDevice],
    [createPolicy] and [orchestrate], the history begins with the history
    before, the policies of every user begin with the policies before, and
    the device identifiers of every user begin with the identifiers
    before. *)
Theorem calls_never_remove clock cs :
  ∀ w,
    let w' := calls clock w cs in
    orchestrationHistory (engine w) `prefix_of` orchestrationHistory (engine w') ∧
    (∀ u, getPolicies u (engine w) `prefix_of` getPolicies u (engine w')) ∧
    (∀ u, ids (getDevices u (engine w))
          `prefix_of` ids (getDevices u (engine w'))).
Proof.
  induction cs as [|c cs IH]; intros w; simpl; [done|].
  destruct (call_grows clock w c) as (Hh & Hp & Hi).
  destruct (IH (call clock w c)) as (IHh & IHp & IHi).
  split_and!.
  - etrans; [apply Hh | apply IHh].
  - intros u. etrans; [apply Hp | apply IHp].
  - intros u. etrans; [apply Hi | apply IHi].
Qed.

(** ** Reading the history *)

Lemma filter_truthy_app (l1 l2 : list OrchestrationResult) :
  List.filter (λ r, truthy (r_triggeredAt r)) (l1 ++ l2)
  = List.filter (λ r, truthy (r_triggeredAt r)) l1
    ++ List.filter (λ r, truthy (r_triggeredAt r)) l2.
Proof. apply List.filter_app. Qed.

Lemma filter_truthy_all (l : list OrchestrationResult) :
  Forall (λ r, r_triggeredAt r ≠ 0%Z) l →
  List.filter (λ r, truthy (r_triggeredAt r)) l = l.
Proof.
  induction 1 as [|r l Hr _ IH]; simpl; [done|].
  unfold truthy at 1. apply Z.eqb_neq in Hr. by rewrite Hr, IH.
Qed.

Lemma filter_truthy_nonzero (l : list OrchestrationResult) :
  Forall (λ r, r_triggeredAt r ≠ 0%Z)
         (List.filter (λ r, truthy (r_triggeredAt r)) l).
Proof.
  induction l as [|r l IH]; simpl; [constructor|].
  unfold truthy at 1. destruct (Z.eqb_spec (r_triggeredAt r) 0); simpl; [done|].
  by constructor.
Qed.

(** X19: [getHistory] returns, whoever the user is, the last entries of
    the history without the entries whose time is 0: the last [limit] of
    them when [limit] is positive (all when there are fewer), all of them
    when [limit] is 0, and all but the first [-limit] when [limit] is
    negative. *)
Theorem getHistory_window (userId : string) (limit : Z) (e : Engine) :
  let logged :=
    List.filter (λ r, truthy (r_triggeredAt r)) (orchestrationHistory e) in
  getHistory userId limit e `suffix_of` logged ∧
  Forall (λ r, r_triggeredAt r ≠ 0%Z) (getHistory userId limit e) ∧
  ((0 < limit)%Z →
   getHistory userId limit e = drop (length logged - Z.to_nat limit) logged ∧
   length (getHistory userId limit e) = Nat.min (Z.to_nat limit) (length logged)) ∧
  getHistory userId 0 e = logged ∧
  ((limit < 0)%Z →
   getHistory userId limit e = drop (Z.to_nat (- limit)) logged).
Proof.
  intros logged. unfold getHistory, JS.slice. fold logged.
  pose proof (filter_truthy_nonzero (orchestrationHistory e)) as Hnz.
  fold logged in Hnz.
  split_and!.
  - apply suffix_drop.
  - by apply Forall_drop.
  - intros Hpos.
    assert ((- limit <? 0)%Z = true) as -> by lia.
    assert (Z.to_nat (Z.max (Z.of_nat (length logged) + - limit) 0)
            = length logged - Z.to_nat limit) as -> by lia.
    split; [done|]. rewrite length_drop. lia.
  - simpl. by rewrite Z.min_l by lia.
  - intros Hneg.
    assert ((- limit <? 0)%Z = false) as -> by lia.
    destruct (decide (- limit ≤ Z.of_nat (length logged))%Z).
    + by rewrite Z.min_l by lia.
    + rewrite Z.min_r by lia. rewrite Nat2Z.id.
      by rewrite !drop_ge by lia.
Qed.

Lemma getHistory_window_witness :
  length (getHistory "user-123" 1
            (engine (calls sampleClock sampleWorld
                       [Orchestrate "user-123" focusedVector (5 # 10)%Q;
                        Orchestrate "user-123" focusedVector (5 # 10)%Q])))
  = 1.
Proof.
  pose proof (getHistory_window "user-123" 1
                (engine (calls sampleClock sampleWorld
                           [Orchestrate "user-123" focusedVector (5 # 10)%Q;
                            Orchestrate "user-123" focusedVector (5 # 10)%Q])))
    as (_ & _ & H & _).
  destruct H as [_ H]; [lia|]. rewrite H. reflexivity.
Defined.

Lemma executePolicy_triggeredAt clock userId policy w :
  ∃ k, r_triggeredAt (executePolicy clock userId policy w).1 = epochMs (clock k).
Proof.
  unfold executePolicy.
  destruct (executeActions clock _ _ _) as [[actions devs'] n]. by exists n.
Qed.

Lemma orchestratePolicies_triggeredAt clock userId emotionVector frictionScore ps :
  ∀ w, Forall (λ r, ∃ k, r_triggeredAt r = epochMs (clock k))
              (orchestratePolicies clock userId emotionVector frictionScore ps w).1.
Proof.
  induction ps as [|policy rest IH]; intros w; simpl; [constructor|].
  destruct (p_isActive policy); simpl; [|apply IH].
  destruct (evaluateCondition clock _ _ _ _) as [matched n].
  destruct matched; [|apply IH].
  pose proof (executePolicy_triggeredAt clock userId policy
                {| engine := engine w; reads := n |}) as Hk.
  destruct (executePolicy clock userId policy _) as [result w2].
  specialize (IH (logResult result w2)).
  destruct (orchestratePolicies clock _ _ _ rest _) as [results w3].
  by constructor.
Qed.

Lemma orchestrate_frame clock userId emotionVector frictionScore w :
  let r := orchestrate clock userId emotionVector frictionScore w in
  orchestrationHistory (engine r.2) = orchestrationHistory (engine w) ++ r.1 ∧
  Forall (λ x, ∃ k, r_triggeredAt x = epochMs (clock k)) r.1.
Proof.
  unfold orchestrate. split.
  - apply orchestratePolicies_effects.
  - apply orchestratePolicies_triggeredAt.
Qed.

(** X20: when the clock never reads 0, the history read after an
    orchestration ends with the results of that orchestration, as long as
    the limit is at least their number (or is 0): the newest results come
    last. *)
Theorem getHistory_after_orchestrate clock userId emotionVector frictionScore w
    (anyUser : string) (limit : Z) :
  (∀ k, epochMs (clock k) ≠ 0%Z) →
  let r := orchestrate clock userId emotionVector frictionScore w in
  (limit = 0 ∨ Z.of_nat (length r.1) ≤ limit)%Z →
  r.1 `suffix_of` getHistory anyUser limit (engine r.2).
Proof.
  intros Hclock r Hlimit. subst r.
  destruct (orchestrate_frame clock userId emotionVector frictionScore w) as [Hh Hts].
  set (r := orchestrate clock userId emotionVector frictionScore w) in *.
  assert (Hnz : Forall (λ x, r_triggeredAt x ≠ 0%Z) r.1).
  { eapply Forall_impl; [exact Hts|]. intros x [k ->]. apply Hclock. }
  unfold getHistory. rewrite Hh, filter_truthy_app, (filter_truthy_all _ Hnz).
  set (old := List.filter _ (orchestrationHistory (engine w))).
  unfold JS.slice. rewrite length_app.
  destruct (- limit <? 0)%Z eqn:Hsign.
  - assert (Z.to_nat (Z.max (Z.of_nat (length old + length r.1) + - limit) 0)
            ≤ length old) as Hk by lia.
    rewrite drop_app_le by done. by apply suffix_app_r.
  - assert (limit = 0%Z) as -> by lia. simpl.
    rewrite Z.min_l by lia. simpl. by apply suffix_app_r.
Qed.

Lemma getHistory_after_orchestrate_witness :
  (orchestrate sampleClock "user-123" focusedVector (5 # 10)%Q sampleWorld).1
  `suffix_of`
  getHistory "user-123" 1
    (engine (orchestrate sampleClock "user-123" focusedVector (5 # 10)%Q
               sampleWorld).2).
Proof.
  apply (getHistory_after_orchestrate sampleClock "user-123" focusedVector
           (5 # 10)%Q sampleWorld "user-123" 1).
  - intros k. unfold sampleClock. simpl. lia.
  - right. vm_compute. discriminate.
Defined.

(** ** A policy without a registered device *)

Lemma executeActions_all_missing clock specs (devs : list SmartHomeDevice) n :
  Forall (λ a, a_deviceId a ∉ ids devs) specs →
  let r := executeActions clock specs devs n in
  r.1.2 = devs ∧ r.2 = n ∧
  Forall (λ o, o_success o = false ∧
               o_error o = Some "Device not found"%string) r.1.1.
Proof.
  induction 1 as [|a rest Ha _ IH].
  - split_and!; [done..|constructor].
  - apply find_unregistered in Ha.
    rewrite (executeActions_cons_missing _ _ _ _ _ Ha). simpl in *.
    destruct IH as (? & ? & ?). split_and!; [done..|]. by constructor.
Qed.

(** X21: when no action of a policy names a registered device, as for a
    user without devices, executing the policy leaves the engine as it is:
    every outcome is a failure with "Device not found", the clock is read
    once, for the time of the result, and no entry is made for the user in
    the registry. *)
Theorem executePolicy_nothing_registered clock userId policy w :
  Forall (λ a, a_deviceId a ∉ ids (getDevices userId (engine w)))
         (p_devices policy) →
  let r := executePolicy clock userId policy w in
  engine r.2 = engine w ∧
  reads r.2 = S (reads w) ∧
  r_triggeredAt r.1 = epochMs (clock (reads w)) ∧
  length (r_actions r.1) = length (p_devices policy) ∧
  Forall (λ o, o_success o = false ∧
               o_error o = Some "Device not found"%string) (r_actions r.1).
Proof.
  intros Hall r.
  pose proof (executePolicy_result clock userId policy w) as (_ & _ & Hlen).
  fold r in Hlen. subst r. unfold getDevices in Hall. unfold executePolicy in *.
  destruct (executeActions_all_missing clock _ _ (reads w) Hall) as (Hd & Hn & Ho).
  destruct (executeActions clock _ _ _) as [[actions devs'] n]. simpl in *.
  subst. split_and!; try done.
  destruct (engine w) as [ds ps hs]. simpl in *. f_equal.
  destruct (ds !! userId) as [l|] eqn:Hl; simpl; [|done].
  by apply insert_id.
Qed.

Lemma executePolicy_nothing_registered_witness :
  engine (executePolicy sampleClock "user-123" atticPolicy sampleWorld).2
  = engine sampleWorld.
Proof.
  apply (executePolicy_nothing_registered sampleClock "user-123" atticPolicy
           sampleWorld).
  constructor; [|constructor].
  vm_compute. intros H.
  repeat (inversion H as [|? ? ? H']; clear H; rename H' into H).
Defined.

(** ** Entanglement and the context *)

(** X22: the result of [decide] carries ENTANGLEMENT exactly when the
    multi-device flag is [true] and at least two devices are named; with
    the flag missing or [false], no device list, or fewer than two
    devices, the result has no quatState and the action is never
    ORCHESTRATE_SYNC; with entanglement the action is never
    PROCEED_LOCAL. *)
Theorem decide_entanglement_needs_two_devices {G} (rng : G → Q * G) (g : G)
    (context : DecisionContext) :
  let r := (QuantumDecisionEngine.decide rng g context).1 in
  (quatState r = Some ENTANGLEMENT ↔
   ctx_multiDeviceContext context = Some true ∧
   ∃ devices, ctx_deviceIds context = Some devices ∧ 2 ≤ length devices) ∧
  (quatState r = None → action r ≠ ORCHESTRATE_SYNC) ∧
  (quatState r = Some ENTANGLEMENT → action r ≠ PROCEED_LOCAL).
Proof.
  intros r. subst r. rewrite decide_quatState, decide_action.
  pose proof (checkEntanglement_iff context) as Hiff.
  destruct (checkEntanglement context).
  - split_and!.
    + split; [intros _; by apply Hiff | done].
    + done.
    + intros _. by destruct (triState _).
  - split_and!.
    + split; [done|]. intros H. by apply Hiff in H.
    + intros _. by destruct (triState _).
    + done.
Qed.
